(** * A shallow embedding of simple-http-server (src/main.go)

    The request handler [FileServer.ServeHTTP], its two branches
    [serveFile] and [serveDirectory], the listing renderer
    [generateDirectoryHTML] with its template helpers, and [getMimeType].

    Go strings are byte strings; they are modelled as Stdlib [string]
    (lists of 8-bit [ascii]).  The Go standard-library functions the
    handler calls ([strings.*], [path/filepath.*], [os.Stat], ...) are
    modelled from their Go implementations and documentation; the file
    system and the process environment are an explicit record [Env]. *)

From Stdlib Require Import String Ascii List Bool ZArith Lia.
From Stdlib Require Import Sorting.Permutation Sorting.Sorted Numbers.DecimalString.
Import ListNotations.
Open Scope list_scope.
Open Scope string_scope.

(** ** Byte-string helpers *)

Definition slash : ascii := "/".
Definition dot : ascii := ".".

(** The double-quote byte, written by its code. *)
Definition dq : string := String "034"%char EmptyString.

Definition str_of_bytes (l : list nat) : string :=
  fold_right (fun n s => String (ascii_of_nat n) s) EmptyString l.

Definition eqb_ascii (a b : ascii) : bool := if ascii_dec a b then true else false.

(** [strings.HasPrefix(s, prefix)] *)
Definition has_prefix (s pre : string) : bool := String.prefix pre s.

(** [strings.TrimPrefix(s, prefix)] *)
Definition trim_prefix (s pre : string) : string :=
  if has_prefix s pre then substring (String.length pre) (String.length s) s else s.

(** [strings.Contains(s, substr)]: [substr] occurs at some index of [s]. *)
Fixpoint contains (s sub : string) : bool :=
  String.prefix sub s ||
  match s with
  | EmptyString => false
  | String _ s' => contains s' sub
  end.

(** [strings.Split(s, "/")]: never empty, one more piece than there are
    separators. *)
Fixpoint split_sep (s : string) : list string :=
  match s with
  | EmptyString => [EmptyString]
  | String c s' =>
      let r := split_sep s' in
      if eqb_ascii c slash then EmptyString :: r
      else match r with
           | h :: t => String c h :: t
           | [] => [String c EmptyString]
           end
  end.

(** [strings.Join(elems, "/")] *)
Definition join_sep (l : list string) : string := String.concat "/" l.

(** ** path/filepath (Unix) *)

Module FilePath.

(** One step of [filepath.Clean] over a path element, on the stack of
    elements written so far (top = last written).  This is the lazybuf loop
    of [Clean] read element-wise: empty elements (repeated separators) and
    ["."] are dropped; [".."] removes the last written element unless that
    is itself a leading [".."]; at the start of a rooted path it is dropped,
    at the start of a relative path it is kept. *)
Definition clean_step (rooted : bool) (st : list string) (e : string) : list string :=
  if String.eqb e "" || String.eqb e "." then st
  else if String.eqb e ".." then
    match st with
    | top :: rest =>
        if String.eqb top ".." then (if rooted then st else ".." :: st)
        else rest
    | [] => if rooted then [] else [".."]
    end
  else e :: st.

(** [filepath.IsAbs] on Unix. *)
Definition is_abs (p : string) : bool := has_prefix p "/".

(** [filepath.Clean] *)
Definition clean (p : string) : string :=
  let rooted := is_abs p in
  let st := fold_left (clean_step rooted) (split_sep p) [] in
  let body := join_sep (rev st) in
  if rooted then "/" ++ body
  else if String.eqb body "" then "." else body.

(** [filepath.Join(a, b)]: the first non-empty element starts the join,
    and the result is cleaned; all elements empty gives [""]. *)
Definition join (a b : string) : string :=
  if negb (String.eqb a "") then clean (a ++ "/" ++ b)
  else if negb (String.eqb b "") then clean b
  else "".

(** [filepath.Abs] on Unix: [wd] is the result of [os.Getwd]
    ([None] when it fails). *)
Definition abs (wd : option string) (p : string) : option string :=
  if is_abs p then Some (clean p)
  else match wd with
       | Some w => Some (join w p)
       | None => None
       end.

(** [filepath.Base] *)
Definition base (p : string) : string :=
  if String.eqb p "" then "."
  else
    let pieces := split_sep p in
    (* strip trailing separators, then keep the last element *)
    let nonempty := filter (fun e => negb (String.eqb e "")) pieces in
    match rev nonempty with
    | [] => "/"
    | last :: _ => last
    end.

(** [filepath.Ext]: the suffix from the final dot of the final element. *)
Definition ext (p : string) : string :=
  let last := last (split_sep p) "" in
  (* the final dot of the last element: scan the element backwards *)
  let fix go (rs : list ascii) (acc : string) : string :=
    match rs with
    | [] => ""
    | c :: rs' =>
        if eqb_ascii c dot then String c acc else go rs' (String c acc)
    end in
  go (rev (list_ascii_of_string last)) "".

End FilePath.

(** ** fmt helpers *)

(** [fmt.Sprintf("%d", n)] *)
Definition dec (n : Z) : string := NilEmpty.string_of_int (Z.to_int n).

(** [n] in decimal, left-padded with zeros to [w] digits (the
    [time.Format] fields "2006", "01", "02", "15", "04"). *)
Definition dec_pad (w : nat) (n : Z) : string :=
  let s := dec (Z.abs n) in
  let pad := String.length s in
  (if (n <? 0)%Z then "-" else "") ++
  (if Nat.ltb pad w then String.concat "" (repeat "0" (w - pad)) else "") ++ s.

(** Rounding [a / b] to the nearest integer, ties to even ([b > 0]):
    the rounding of strconv's decimal formatting ([shouldRoundUp]) and of
    IEEE-754 conversions. *)
Definition round_half_even (a b : Z) : Z :=
  let q := (a / b)%Z in
  let r := (a mod b)%Z in
  if (b <? 2 * r)%Z then (q + 1)%Z
  else if (2 * r <? b)%Z then q
  else if Z.even q then q else (q + 1)%Z.

(** [float64(n)] for an [int64] [n]: rounded to 53 significant bits. *)
Definition float64_of_int (n : Z) : Z :=
  let m := Z.abs n in
  if (m <? 2 ^ 53)%Z then n
  else
    let sh := (Z.log2 m - 52)%Z in
    let r := (round_half_even m (2 ^ sh) * 2 ^ sh)%Z in
    if (n <? 0)%Z then (- r)%Z else r.

(** [fmt.Sprintf("%.1f", v)] for the non-negative dyadic value
    [v = num / den]: the correctly rounded value with one decimal. *)
Definition fmt_1f (num den : Z) : string :=
  let q := round_half_even (10 * num) den in
  dec (q / 10) ++ "." ++ dec (q mod 10).

(** The [formatBytes] template function.  [float64(bytes)/1024] and
    [float64(bytes)/(1024*1024)] divide by powers of two, which is exact on
    float64, so the printed value is [fmt_1f (float64 bytes) 2^k]. *)
Definition formatBytes (bytes : Z) : string :=
  if (bytes <? 1024)%Z then dec bytes ++ " B"
  else if (bytes <? 1024 * 1024)%Z then fmt_1f (float64_of_int bytes) 1024 ++ " KB"
  else fmt_1f (float64_of_int bytes) (1024 * 1024) ++ " MB".

(** ** time.Time.Format("2006-01-02 15:04") *)

(** Civil date of a day count since 1970-01-01 (proleptic Gregorian). *)
Definition civil_from_days (z : Z) : Z * Z * Z :=
  let z := (z + 719468)%Z in
  let era := (z / 146097)%Z in
  let doe := (z - era * 146097)%Z in
  let yoe := ((doe - doe / 1460 + doe / 36524 - doe / 146096) / 365)%Z in
  let y := (yoe + era * 400)%Z in
  let doy := (doe - (365 * yoe + yoe / 4 - yoe / 100))%Z in
  let mp := ((5 * doy + 2) / 153)%Z in
  let d := (doy - (153 * mp + 2) / 5 + 1)%Z in
  let m := if (mp <? 10)%Z then (mp + 3)%Z else (mp - 9)%Z in
  ((if (m <=? 2)%Z then y + 1 else y)%Z, m, d).

(** A modification time is Unix seconds; [Local] is a fixed offset in
    seconds east of UTC. *)
Definition format_time (offset secs : Z) : string :=
  let t := (secs + offset)%Z in
  let days := (t / 86400)%Z in
  let sod := (t mod 86400)%Z in
  let '(y, m, d) := civil_from_days days in
  dec_pad 4 y ++ "-" ++ dec_pad 2 m ++ "-" ++ dec_pad 2 d ++ " " ++
  dec_pad 2 (sod / 3600) ++ ":" ++ dec_pad 2 ((sod mod 3600) / 60).

(** ** html/template contextual escaping *)

Definition map_bytes (f : ascii -> string) (s : string) : string :=
  String.concat "" (map f (list_ascii_of_string s)).

(** [htmlEscaper] / [rcdataEscaper] / [attrEscaper]: the
    [htmlReplacementTable]. *)
Definition html_escape_byte (c : ascii) : string :=
  match nat_of_ascii c with
  | 0 => str_of_bytes [239; 191; 189]
  | 34 => "&#34;"
  | 38 => "&amp;"
  | 39 => "&#39;"
  | 43 => "&#43;"
  | 60 => "&lt;"
  | 62 => "&gt;"
  | _ => String c EmptyString
  end.

Definition html_escape (s : string) : string := map_bytes html_escape_byte s.

Definition hex_digit (n : nat) : ascii :=
  if Nat.ltb n 10 then ascii_of_nat (48 + n) else ascii_of_nat (87 + n).

(** [urlNormalizer]: bytes outside the URL character set are
    percent-encoded (lower-case hex). *)
Definition url_normalize_byte (c : ascii) : string :=
  let n := nat_of_ascii c in
  if ((Nat.leb 97 n) && (Nat.leb n 122)) || ((Nat.leb 65 n) && (Nat.leb n 90))
     || ((Nat.leb 48 n) && (Nat.leb n 57))
     || existsb (Nat.eqb n)
          [33; 35; 36; 38; 42; 43; 44; 47; 58; 59; 61; 63; 64; 91; 93;
           45; 46; 95; 126; 37]
  then String c EmptyString
  else String "%" (String (hex_digit (n / 16)) (String (hex_digit (n mod 16)) EmptyString)).

Definition url_normalize (s : string) : string := map_bytes url_normalize_byte s.

(** ** unicode/utf8, unicode.ToLower and strings.ToLower *)

(** One step of [utf8.DecodeRuneInString]: a rune, or [RuneError] for an
    invalid byte, which is consumed alone. *)
Inductive utf8_unit := Rune (r : Z) | Bad.

Definition utf8_RuneError : Z := 0xFFFD.

Definition in_byte_range (lo hi b : nat) : bool := Nat.leb lo b && Nat.leb b hi.

(** The table [first] of unicode/utf8 for a non-ASCII leading byte: the
    sequence size and the accepted range of the second byte; [None] for
    the bytes that never start a sequence. *)
Definition utf8_first (b : nat) : option (nat * nat * nat) :=
  if in_byte_range 194 223 b then Some (2, 128, 191)
  else if Nat.eqb b 224 then Some (3, 160, 191)
  else if in_byte_range 225 236 b then Some (3, 128, 191)
  else if Nat.eqb b 237 then Some (3, 128, 159)
  else if in_byte_range 238 239 b then Some (3, 128, 191)
  else if Nat.eqb b 240 then Some (4, 144, 191)
  else if in_byte_range 241 243 b then Some (4, 128, 191)
  else if Nat.eqb b 244 then Some (4, 128, 143)
  else None.

Definition zb (c : ascii) : Z := Z.of_nat (nat_of_ascii c).

(** The runes of a byte string, as [for range] and [strings.Map] see
    them: repeated [utf8.DecodeRuneInString]. *)
Fixpoint utf8_units (s : list ascii) : list utf8_unit :=
  match s with
  | [] => []
  | c0 :: s1 =>
      let b0 := nat_of_ascii c0 in
      if Nat.ltb b0 128 then Rune (zb c0) :: utf8_units s1 else
      match utf8_first b0, s1 with
      | Some (sz, lo, hi), c1 :: s2 =>
          if negb (in_byte_range lo hi (nat_of_ascii c1)) then Bad :: utf8_units s1
          else if Nat.eqb sz 2 then
            Rune (Z.lor (Z.shiftl (Z.land (zb c0) 0x1F) 6) (Z.land (zb c1) 0x3F))
              :: utf8_units s2
          else match s2 with
               | c2 :: s3 =>
                   if negb (in_byte_range 128 191 (nat_of_ascii c2)) then Bad :: utf8_units s1
                   else if Nat.eqb sz 3 then
                     Rune (Z.lor (Z.lor (Z.shiftl (Z.land (zb c0) 0x0F) 12)
                                        (Z.shiftl (Z.land (zb c1) 0x3F) 6))
                                 (Z.land (zb c2) 0x3F)) :: utf8_units s3
                   else match s3 with
                        | c3 :: s4 =>
                            if negb (in_byte_range 128 191 (nat_of_ascii c3))
                            then Bad :: utf8_units s1
                            else Rune (Z.lor (Z.lor (Z.shiftl (Z.land (zb c0) 0x07) 18)
                                                    (Z.shiftl (Z.land (zb c1) 0x3F) 12))
                                             (Z.lor (Z.shiftl (Z.land (zb c2) 0x3F) 6)
                                                    (Z.land (zb c3) 0x3F))) :: utf8_units s4
                        | [] => Bad :: utf8_units s1
                        end
               | [] => Bad :: utf8_units s1
               end
      | _, _ => Bad :: utf8_units s1
      end
  end.

Definition byte_of (z : Z) : ascii := ascii_of_nat (Z.to_nat (Z.land z 0xFF)).

(** [utf8.EncodeRune] (through [strings.Builder.WriteRune]): negative
    values, surrogates and values above [MaxRune] encode [RuneError]. *)
Definition utf8_encode3 (r : Z) : list ascii :=
  [byte_of (Z.lor 0xE0 (Z.shiftr r 12));
   byte_of (Z.lor 0x80 (Z.land (Z.shiftr r 6) 0x3F));
   byte_of (Z.lor 0x80 (Z.land r 0x3F))].

Definition utf8_encode (r : Z) : list ascii :=
  if Z.ltb r 0 then utf8_encode3 utf8_RuneError
  else if Z.leb r 0x7F then [byte_of r]
  else if Z.leb r 0x7FF then
    [byte_of (Z.lor 0xC0 (Z.shiftr r 6)); byte_of (Z.lor 0x80 (Z.land r 0x3F))]
  else if Z.ltb 0x10FFFF r || (Z.leb 0xD800 r && Z.leb r 0xDFFF) then
    utf8_encode3 utf8_RuneError
  else if Z.leb r 0xFFFF then utf8_encode3 r
  else [byte_of (Z.lor 0xF0 (Z.shiftr r 18));
        byte_of (Z.lor 0x80 (Z.land (Z.shiftr r 12) 0x3F));
        byte_of (Z.lor 0x80 (Z.land (Z.shiftr r 6) 0x3F));
        byte_of (Z.lor 0x80 (Z.land r 0x3F))].

(** The lower-case half of [unicode.CaseRanges] above ASCII: an entry
    [(lo, hi, step, delta)] maps [lo], [lo + step], ..., [hi] to the
    code point plus [delta].  Generated from the simple lowercase
    mappings of UnicodeData.txt (Unicode 14.0); the only entries whose
    image is ASCII are U+0130 (to 'i') and the Kelvin sign U+212A (to
    'k'). *)
Definition lower_ranges : list (Z * Z * Z * Z) :=
  ([(0x00C0, 0x00D6, 1, 32);
   (0x00D8, 0x00DE, 1, 32);
   (0x0100, 0x012E, 2, 1);
   (0x0130, 0x0130, 1, -199);
   (0x0132, 0x0136, 2, 1);
   (0x0139, 0x0147, 2, 1);
   (0x014A, 0x0176, 2, 1);
   (0x0178, 0x0178, 1, -121);
   (0x0179, 0x017D, 2, 1);
   (0x0181, 0x0181, 1, 210);
   (0x0182, 0x0184, 2, 1);
   (0x0186, 0x0186, 1, 206);
   (0x0187, 0x0187, 1, 1);
   (0x0189, 0x018A, 1, 205);
   (0x018B, 0x018B, 1, 1);
   (0x018E, 0x018E, 1, 79);
   (0x018F, 0x018F, 1, 202);
   (0x0190, 0x0190, 1, 203);
   (0x0191, 0x0191, 1, 1);
   (0x0193, 0x0193, 1, 205);
   (0x0194, 0x0194, 1, 207);
   (0x0196, 0x0196, 1, 211);
   (0x0197, 0x0197, 1, 209);
   (0x0198, 0x0198, 1, 1);
   (0x019C, 0x019C, 1, 211);
   (0x019D, 0x019D, 1, 213);
   (0x019F, 0x019F, 1, 214);
   (0x01A0, 0x01A4, 2, 1);
   (0x01A6, 0x01A6, 1, 218);
   (0x01A7, 0x01A7, 1, 1);
   (0x01A9, 0x01A9, 1, 218);
   (0x01AC, 0x01AC, 1, 1);
   (0x01AE, 0x01AE, 1, 218);
   (0x01AF, 0x01AF, 1, 1);
   (0x01B1, 0x01B2, 1, 217);
   (0x01B3, 0x01B5, 2, 1);
   (0x01B7, 0x01B7, 1, 219);
   (0x01B8, 0x01B8, 1, 1);
   (0x01BC, 0x01BC, 1, 1);
   (0x01C4, 0x01C4, 1, 2);
   (0x01C5, 0x01C5, 1, 1);
   (0x01C7, 0x01C7, 1, 2);
   (0x01C8, 0x01C8, 1, 1);
   (0x01CA, 0x01CA, 1, 2);
   (0x01CB, 0x01DB, 2, 1);
   (0x01DE, 0x01EE, 2, 1);
   (0x01F1, 0x01F1, 1, 2);
   (0x01F2, 0x01F4, 2, 1);
   (0x01F6, 0x01F6, 1, -97);
   (0x01F7, 0x01F7, 1, -56);
   (0x01F8, 0x021E, 2, 1);
   (0x0220, 0x0220, 1, -130);
   (0x0222, 0x0232, 2, 1);
   (0x023A, 0x023A, 1, 10795);
   (0x023B, 0x023B, 1, 1);
   (0x023D, 0x023D, 1, -163);
   (0x023E, 0x023E, 1, 10792);
   (0x0241, 0x0241, 1, 1);
   (0x0243, 0x0243, 1, -195);
   (0x0244, 0x0244, 1, 69);
   (0x0245, 0x0245, 1, 71);
   (0x0246, 0x024E, 2, 1);
   (0x0370, 0x0372, 2, 1);
   (0x0376, 0x0376, 1, 1);
   (0x037F, 0x037F, 1, 116);
   (0x0386, 0x0386, 1, 38);
   (0x0388, 0x038A, 1, 37);
   (0x038C, 0x038C, 1, 64);
   (0x038E, 0x038F, 1, 63);
   (0x0391, 0x03A1, 1, 32);
   (0x03A3, 0x03AB, 1, 32);
   (0x03CF, 0x03CF, 1, 8);
   (0x03D8, 0x03EE, 2, 1);
   (0x03F4, 0x03F4, 1, -60);
   (0x03F7, 0x03F7, 1, 1);
   (0x03F9, 0x03F9, 1, -7);
   (0x03FA, 0x03FA, 1, 1);
   (0x03FD, 0x03FF, 1, -130);
   (0x0400, 0x040F, 1, 80);
   (0x0410, 0x042F, 1, 32);
   (0x0460, 0x0480, 2, 1);
   (0x048A, 0x04BE, 2, 1);
   (0x04C0, 0x04C0, 1, 15);
   (0x04C1, 0x04CD, 2, 1);
   (0x04D0, 0x052E, 2, 1);
   (0x0531, 0x0556, 1, 48);
   (0x10A0, 0x10C5, 1, 7264);
   (0x10C7, 0x10C7, 1, 7264);
   (0x10CD, 0x10CD, 1, 7264);
   (0x13A0, 0x13EF, 1, 38864);
   (0x13F0, 0x13F5, 1, 8);
   (0x1C90, 0x1CBA, 1, -3008);
   (0x1CBD, 0x1CBF, 1, -3008);
   (0x1E00, 0x1E94, 2, 1);
   (0x1E9E, 0x1E9E, 1, -7615);
   (0x1EA0, 0x1EFE, 2, 1);
   (0x1F08, 0x1F0F, 1, -8);
   (0x1F18, 0x1F1D, 1, -8);
   (0x1F28, 0x1F2F, 1, -8);
   (0x1F38, 0x1F3F, 1, -8);
   (0x1F48, 0x1F4D, 1, -8);
   (0x1F59, 0x1F5F, 2, -8);
   (0x1F68, 0x1F6F, 1, -8);
   (0x1F88, 0x1F8F, 1, -8);
   (0x1F98, 0x1F9F, 1, -8);
   (0x1FA8, 0x1FAF, 1, -8);
   (0x1FB8, 0x1FB9, 1, -8);
   (0x1FBA, 0x1FBB, 1, -74);
   (0x1FBC, 0x1FBC, 1, -9);
   (0x1FC8, 0x1FCB, 1, -86);
   (0x1FCC, 0x1FCC, 1, -9);
   (0x1FD8, 0x1FD9, 1, -8);
   (0x1FDA, 0x1FDB, 1, -100);
   (0x1FE8, 0x1FE9, 1, -8);
   (0x1FEA, 0x1FEB, 1, -112);
   (0x1FEC, 0x1FEC, 1, -7);
   (0x1FF8, 0x1FF9, 1, -128);
   (0x1FFA, 0x1FFB, 1, -126);
   (0x1FFC, 0x1FFC, 1, -9);
   (0x2126, 0x2126, 1, -7517);
   (0x212A, 0x212A, 1, -8383);
   (0x212B, 0x212B, 1, -8262);
   (0x2132, 0x2132, 1, 28);
   (0x2160, 0x216F, 1, 16);
   (0x2183, 0x2183, 1, 1);
   (0x24B6, 0x24CF, 1, 26);
   (0x2C00, 0x2C2F, 1, 48);
   (0x2C60, 0x2C60, 1, 1);
   (0x2C62, 0x2C62, 1, -10743);
   (0x2C63, 0x2C63, 1, -3814);
   (0x2C64, 0x2C64, 1, -10727);
   (0x2C67, 0x2C6B, 2, 1);
   (0x2C6D, 0x2C6D, 1, -10780);
   (0x2C6E, 0x2C6E, 1, -10749);
   (0x2C6F, 0x2C6F, 1, -10783);
   (0x2C70, 0x2C70, 1, -10782);
   (0x2C72, 0x2C72, 1, 1);
   (0x2C75, 0x2C75, 1, 1);
   (0x2C7E, 0x2C7F, 1, -10815);
   (0x2C80, 0x2CE2, 2, 1);
   (0x2CEB, 0x2CED, 2, 1);
   (0x2CF2, 0x2CF2, 1, 1);
   (0xA640, 0xA66C, 2, 1);
   (0xA680, 0xA69A, 2, 1);
   (0xA722, 0xA72E, 2, 1);
   (0xA732, 0xA76E, 2, 1);
   (0xA779, 0xA77B, 2, 1);
   (0xA77D, 0xA77D, 1, -35332);
   (0xA77E, 0xA786, 2, 1);
   (0xA78B, 0xA78B, 1, 1);
   (0xA78D, 0xA78D, 1, -42280);
   (0xA790, 0xA792, 2, 1);
   (0xA796, 0xA7A8, 2, 1);
   (0xA7AA, 0xA7AA, 1, -42308);
   (0xA7AB, 0xA7AB, 1, -42319);
   (0xA7AC, 0xA7AC, 1, -42315);
   (0xA7AD, 0xA7AD, 1, -42305);
   (0xA7AE, 0xA7AE, 1, -42308);
   (0xA7B0, 0xA7B0, 1, -42258);
   (0xA7B1, 0xA7B1, 1, -42282);
   (0xA7B2, 0xA7B2, 1, -42261);
   (0xA7B3, 0xA7B3, 1, 928);
   (0xA7B4, 0xA7C2, 2, 1);
   (0xA7C4, 0xA7C4, 1, -48);
   (0xA7C5, 0xA7C5, 1, -42307);
   (0xA7C6, 0xA7C6, 1, -35384);
   (0xA7C7, 0xA7C9, 2, 1);
   (0xA7D0, 0xA7D0, 1, 1);
   (0xA7D6, 0xA7D8, 2, 1);
   (0xA7F5, 0xA7F5, 1, 1);
   (0xFF21, 0xFF3A, 1, 32);
   (0x10400, 0x10427, 1, 40);
   (0x104B0, 0x104D3, 1, 40);
   (0x10570, 0x1057A, 1, 39);
   (0x1057C, 0x1058A, 1, 39);
   (0x1058C, 0x10592, 1, 39);
   (0x10594, 0x10595, 1, 39);
   (0x10C80, 0x10CB2, 1, 64);
   (0x118A0, 0x118BF, 1, 32);
   (0x16E40, 0x16E5F, 1, 32);
   (0x1E900, 0x1E921, 1, 34)])%Z.

Definition in_case_range (e : Z * Z * Z * Z) (r : Z) : bool :=
  let '(lo, hi, step, _) := e in
  Z.leb lo r && Z.leb r hi && Z.eqb (Z.modulo (r - lo)%Z step) 0.

(** [unicode.ToLower]. *)
Definition unicode_lower (r : Z) : Z :=
  if Z.leb r 0x7F then (if Z.leb 65 r && Z.leb r 90 then (r + 32)%Z else r)
  else match find (fun e => in_case_range e r) lower_ranges with
       | Some (_, _, _, delta) => (r + delta)%Z
       | None => r
       end.

Definition ascii_lower (c : ascii) : ascii :=
  let n := nat_of_ascii c in
  if (Nat.leb 65 n) && (Nat.leb n 90) then ascii_of_nat (n + 32) else c.

(** The output of [strings.Map(unicode.ToLower, .)] for one rune: an
    invalid byte is replaced by the encoding of [RuneError]. *)
Definition lower_unit (u : utf8_unit) : list ascii :=
  match u with
  | Rune r => utf8_encode (unicode_lower r)
  | Bad => utf8_encode (unicode_lower utf8_RuneError)
  end.

(** [strings.ToLower]: byte-wise on an all-ASCII string, otherwise
    [strings.Map(unicode.ToLower, s)]. *)
Definition to_lower (s : string) : string :=
  let bs := list_ascii_of_string s in
  if forallb (fun c => Nat.ltb (nat_of_ascii c) 128) bs
  then string_of_list_ascii (map ascii_lower bs)
  else string_of_list_ascii (concat (map lower_unit (utf8_units bs))).

(** Does rune [r] fold to the ASCII byte [c] under [unicode.SimpleFold]?
    The orbits of ASCII letters are their two cases, plus U+212A for
    k/K and U+017F for s/S. *)
Definition fold_eq_ascii (r : Z) (c : ascii) : bool :=
  let n := zb c in
  let letter := (Z.leb 65 n && Z.leb n 90) || (Z.leb 97 n && Z.leb n 122) in
  Z.eqb r n
  || (letter && (Z.eqb r (n + 32)%Z || Z.eqb r (n - 32)%Z))
  || ((Z.eqb n 75 || Z.eqb n 107) && Z.eqb r 0x212A)
  || ((Z.eqb n 83 || Z.eqb n 115) && Z.eqb r 0x17F).

Fixpoint equal_fold_units (u : list utf8_unit) (t : list ascii) : bool :=
  match u, t with
  | [], [] => true
  | Rune r :: u', c :: t' => fold_eq_ascii r c && equal_fold_units u' t'
  | _, _ => false
  end.

(** [strings.EqualFold(s, t)] for an ASCII [t]: rune by rune, equal
    under simple case folding. *)
Definition equal_fold_ascii (s t : string) : bool :=
  equal_fold_units (utf8_units (list_ascii_of_string s)) (list_ascii_of_string t).

(** [urlFilter] ([isSafeURL]): a value with a scheme other than http,
    https or mailto becomes ["#ZgotmplZ"]. *)
Definition url_filter (s : string) : string :=
  match String.index 0 ":" s with
  | Some i =>
      let protocol := substring 0 i s in
      if contains protocol "/" then s
      else if existsb (equal_fold_ascii protocol) ["http"; "https"; "mailto"]
      then s else "#ZgotmplZ"
  | None => s
  end.

(** An action at the start of a quoted [href] value. *)
Definition url_attr (s : string) : string := html_escape (url_normalize (url_filter s)).

(** The bytes that would end an attribute value or open markup. *)
Definition markup_byte (c : ascii) : bool :=
  existsb (fun m => eqb_ascii c m) ["<"%char; ">"%char; "034"%char; "039"%char].

(** ** The environment: file system and process *)

(** Errno values of a failing [os.Stat]. *)
Inductive errno := ENOENT | ENOTDIR | EACCES | ELOOP | ENAMETOOLONG | EIO.

(** [os.IsNotExist]: only [ENOENT] unwraps to [fs.ErrNotExist]. *)
Definition is_not_exist (e : errno) : bool :=
  match e with ENOENT => true | _ => false end.

(** The part of an [os.FileInfo] the program reads. *)
Record os_file_info := {
  fi_is_dir : bool;
  fi_size : Z;          (* Size(), bytes *)
  fi_mod_time : Z       (* ModTime(), Unix seconds *)
}.

(** An [*os.File] after a successful [os.Open]: the result of its [Stat]
    (error text or info) and the bytes [io.Copy] delivers from it. *)
Record open_file := {
  of_stat : string + os_file_info;
  of_data : string
}.

(** An [os.DirEntry]: name, type bit, and the result of [Info()]. *)
Record dir_entry := {
  de_name : string;
  de_is_dir : bool;
  de_info : string + os_file_info
}.

(** Everything a request observes.  Errors of [os.Open] and [os.ReadDir]
    are their [Error()] texts; [read_dir] lists entries sorted by file name
    as [os.ReadDir] does. *)
Record Env := {
  getwd : option string;
  stat : string -> errno + os_file_info;
  open : string -> string + open_file;
  read_dir : string -> string + list dir_entry;
  local_offset : Z
}.

(** ** Responses *)

Record response := {
  status : Z;
  headers : list (string * string);   (* in the order they are set *)
  body : string
}.

(** A handler either completes a response or panics (a nil dereference);
    net/http recovers the panic and drops the connection without one. *)
Inductive outcome :=
| Respond (r : response)
| Panic (msg : string).

Definition StatusOK : Z := 200.
Definition StatusForbidden : Z := 403.
Definition StatusNotFound : Z := 404.
Definition StatusInternalServerError : Z := 500.

Definition nl : string := String "010"%char EmptyString.

(** [http.Error(w, error, code)] *)
Definition http_Error (error : string) (code : Z) : outcome :=
  Respond {| status := code;
             headers := [("Content-Type", "text/plain; charset=utf-8");
                         ("X-Content-Type-Options", "nosniff")];
             body := error ++ nl |}.

(** ** The listing model *)

(** The [FileInfo] struct of main.go. *)
Record FileInfo := {
  Name : string;
  IsDir : bool;
  Size : Z;
  ModTime : Z;
  URL : string
}.

Record DirectoryListing := {
  Path : string;
  Files : list FileInfo
}.

(** The [less] function given to [sort.Slice]. *)
Definition file_less (a b : FileInfo) : bool :=
  if Bool.eqb (IsDir a) (IsDir b) then
    match String.compare (Name a) (Name b) with Lt => true | _ => false end
  else IsDir a.

(** [sort.Slice(files, less)].  [sort.Slice] is specified by its result
    being ordered by [less]; file names in a directory are distinct, so
    [less] is a strict total order on the slice and the ordered result is
    unique.  It is computed here by insertion. *)
Fixpoint insert_file (x : FileInfo) (l : list FileInfo) : list FileInfo :=
  match l with
  | [] => [x]
  | y :: l' => if file_less y x then y :: insert_file x l' else x :: l
  end.

Definition sort_files (l : list FileInfo) : list FileInfo :=
  fold_right insert_file [] l.

(** The URL of a child (main.go, "Build URL" and "Add trailing slash"). *)
Definition entry_URL (urlPath : string) (entry : dir_entry) : string :=
  (if negb (String.eqb urlPath "") then "/" ++ urlPath ++ "/" ++ de_name entry
   else "/" ++ de_name entry)
  ++ (if de_is_dir entry then "/" else "").

(** The conversion loop of [serveDirectory]: entries whose [Info()] fails
    are skipped ([continue]). *)
Fixpoint build_files (urlPath : string) (entries : list dir_entry) : list FileInfo :=
  match entries with
  | [] => []
  | entry :: rest =>
      match de_info entry with
      | inl _ => build_files urlPath rest
      | inr info =>
          {| Name := de_name entry; IsDir := de_is_dir entry;
             Size := fi_size info; ModTime := fi_mod_time info;
             URL := entry_URL urlPath entry |} :: build_files urlPath rest
      end
  end.

(** The [dirname] template function. *)
Definition dirname (path : string) : string :=
  let parts := split_sep path in
  if Nat.leb (List.length parts) 1 then ""
  else join_sep (removelast parts).

(** The rows of the listing table, in template order: the
    [{{if .Path}}] parent row, then one row per [{{range .Files}}]. *)
Inductive row :=
| ParentRow (href : string)
| EntryRow (f : FileInfo).

(** The [href] of the parent row, escaped as html/template does:
    [{{if eq (len (split .Path "/")) 1}}/{{else}}{{.Path | dirname}}/{{end}}]. *)
Definition parent_href (path : string) : string :=
  if Nat.eqb (List.length (split_sep path)) 1 then "/"
  else url_attr (dirname path) ++ "/".

Definition listing_rows (listing : DirectoryListing) : list row :=
  (if negb (String.eqb (Path listing) "") then [ParentRow (parent_href (Path listing))]
   else [])
  ++ map EntryRow (Files listing).

(** The icon bytes of the template source. *)
Definition dir_icon : string := str_of_bytes [239; 163; 191; 195; 188; 195; 172; 195; 133].
Definition file_icon : string := str_of_bytes [239; 163; 191; 195; 188; 195; 172; 195; 145].

(** The Size cell of an entry row. *)
Definition size_cell (f : FileInfo) : string :=
  if IsDir f then "-" else html_escape (formatBytes (Size f)).

Definition render_row (offset : Z) (r : row) : string :=
  match r with
  | ParentRow href =>
"
            <tr>
                <td><a href=" ++ dq ++ href ++ dq ++ ">" ++ dir_icon ++ " ..</a></td>
                <td><span class=" ++ dq ++ "dir-icon" ++ dq ++ ">" ++ dir_icon ++ "</span> Directory</td>
                <td>-</td>
                <td>-</td>
            </tr>
            "
  | EntryRow f =>
"
            <tr>
                <td><a href=" ++ dq ++ url_attr (URL f) ++ dq ++ ">"
    ++ (if IsDir f then dir_icon else file_icon) ++ " " ++ html_escape (Name f) ++ "</a></td>
                <td>" ++ (if IsDir f then "Directory" else "File") ++ "</td>
                <td>" ++ size_cell f ++ "</td>
                <td>" ++ html_escape (format_time offset (ModTime f)) ++ "</td>
            </tr>
            "
  end.

(** [generateDirectoryHTML]: executing the template.  The template is a
    constant that parses, and executing it into a [strings.Builder] cannot
    fail, so the result is always [inr]; its error case is kept in the type
    for [serveDirectory]. *)
Definition generateDirectoryHTML (offset : Z) (listing : DirectoryListing) : string + string :=
  let path := html_escape (Path listing) in
  let rows := listing_rows listing in
  let parent := filter (fun r => match r with ParentRow _ => true | _ => false end) rows in
  let entries := filter (fun r => match r with EntryRow _ => true | _ => false end) rows in
  inr (
"<!DOCTYPE html>
<html>
<head>
    <title>Directory listing for " ++ path ++ "</title>
    <style>
        body { font-family: Arial, sans-serif; margin: 20px; }
        h1 { color: #333; }
        table { border-collapse: collapse; width: 100%; }
        th, td { border: 1px solid #ddd; padding: 8px; text-align: left; }
        th { background-color: #f2f2f2; }
        a { text-decoration: none; color: #0066cc; }
        a:hover { text-decoration: underline; }
        .file-icon { color: #666; }
        .dir-icon { color: #ff6600; }
    </style>
</head>
<body>
    <h1>Directory listing for " ++ path ++ "</h1>
    <table>
        <thead>
            <tr>
                <th>Name</th>
                <th>Type</th>
                <th>Size</th>
                <th>Modified</th>
            </tr>
        </thead>
        <tbody>
            " ++ String.concat "" (map (render_row offset) parent) ++ "
            " ++ String.concat "" (map (render_row offset) entries) ++ "
        </tbody>
    </table>
</body>
</html>").

(** ** getMimeType *)

Definition getMimeType (filename : string) : string :=
  let e := to_lower (FilePath.ext filename) in
  if existsb (String.eqb e) [".html"; ".htm"] then "text/html"
  else if String.eqb e ".css" then "text/css"
  else if String.eqb e ".js" then "application/javascript"
  else if String.eqb e ".json" then "application/json"
  else if String.eqb e ".png" then "image/png"
  else if existsb (String.eqb e) [".jpg"; ".jpeg"] then "image/jpeg"
  else if String.eqb e ".gif" then "image/gif"
  else if String.eqb e ".svg" then "image/svg+xml"
  else if String.eqb e ".pdf" then "application/pdf"
  else if String.eqb e ".txt" then "text/plain"
  else if String.eqb e ".md" then "text/markdown"
  else "application/octet-stream".

(** ** The handler *)

(** [serveFile] *)
Definition serveFile (env : Env) (filePath : string) : outcome :=
  match open env filePath with
  | inl err => http_Error ("Error reading file: " ++ err) StatusInternalServerError
  | inr file =>
      match of_stat file with
      | inl err => http_Error ("Error reading file: " ++ err) StatusInternalServerError
      | inr info =>
          let filename := FilePath.base filePath in
          (* a failing io.Copy is only logged *)
          Respond {| status := StatusOK;
                     headers := [("Content-Type", getMimeType filename);
                                 ("Content-Length", dec (fi_size info));
                                 ("Content-Disposition",
                                  "attachment; filename=" ++ dq ++ filename ++ dq)];
                     body := of_data file |}
      end
  end.

(** [serveDirectory] *)
Definition serveDirectory (env : Env) (dirPath urlPath : string) : outcome :=
  match read_dir env dirPath with
  | inl err => http_Error ("Error reading directory: " ++ err) StatusInternalServerError
  | inr entries =>
      let files := sort_files (build_files urlPath entries) in
      let listing := {| Path := urlPath; Files := files |} in
      match generateDirectoryHTML (local_offset env) listing with
      | inl err => http_Error ("Error generating HTML: " ++ err) StatusInternalServerError
      | inr html =>
          Respond {| status := StatusOK;
                     headers := [("Content-Type", "text/html; charset=utf-8")];
                     body := html |}
      end
  end.

(** The containment check of [ServeHTTP]:
    [strings.HasPrefix(absPath, serveAbsPath)]. *)
Definition within_serve_dir (absPath serveAbsPath : string) : bool :=
  has_prefix absPath serveAbsPath.

(** [FileServer.ServeHTTP]; [servePath] is the server's only field and
    [reqPath] is [r.URL.Path]. *)
Definition ServeHTTP (env : Env) (servePath reqPath : string) : outcome :=
  let path := trim_prefix reqPath "/" in
  if contains path ".." || has_prefix path "/" then
    http_Error "Forbidden: Directory traversal not allowed" StatusForbidden
  else
    let fullPath := FilePath.join servePath path in
    match FilePath.abs (getwd env) fullPath with
    | None => http_Error "Not Found" StatusNotFound
    | Some absPath =>
        let serveAbsPath :=
          match FilePath.abs (getwd env) servePath with Some p => p | None => "" end in
        if negb (within_serve_dir absPath serveAbsPath) then
          http_Error "Forbidden: Path outside serve directory" StatusForbidden
        else
          match stat env absPath with
          | inl e =>
              if is_not_exist e then http_Error "Not Found" StatusNotFound
              (* [info] is the nil interface: [info.IsDir()] dereferences it *)
              else Panic "runtime error: invalid memory address or nil pointer dereference"
          | inr info =>
              if fi_is_dir info then serveDirectory env absPath path
              else serveFile env absPath
          end
    end.

(** ** main *)

(** How [main]'s own checks end: [os.Exit(code)] after printing, or
    reaching [http.ListenAndServe] with the handler
    [FileServer{servePath}] on [port] after printing. *)
Inductive startup :=
| Exit (code : Z) (stdout : list string)
| Serve (servePath : string) (port : Z) (stdout : list string).

(** [main] from a successful [flag.Parse()] (which itself exits with
    status 2 on a malformed command line) up to the call of
    [http.ListenAndServe], with the [--port] and [--folder] values;
    [wd_err] is the text of the [os.Getwd] error [filepath.Abs] would
    return.  What [ListenAndServe] then does, including the [log.Fatal]
    exit when it fails, is outside this model. *)
Definition main_start (env : Env) (wd_err : string) (port : Z) (folder : string) : startup :=
  if String.eqb folder "" then Exit 1 ["Error: --folder is required" ++ nl]
  else
    match FilePath.abs (getwd env) folder with
    | None => Exit 1 ["Error: Invalid folder path: " ++ wd_err ++ nl]
    | Some servePath =>
        match stat env servePath with
        | inl e =>
            if is_not_exist e then
              Exit 1 ["Error: Folder '" ++ servePath ++ "' does not exist" ++ nl]
            else
              Serve servePath port
                ["Serving files from: " ++ servePath ++ nl;
                 "Server running on: http://localhost:" ++ dec port ++ nl;
                 "Press Ctrl+C to stop the server" ++ nl]
        | inr _ =>
            Serve servePath port
              ["Serving files from: " ++ servePath ++ nl;
               "Server running on: http://localhost:" ++ dec port ++ nl;
               "Press Ctrl+C to stop the server" ++ nl]
        end
    end.

(** ** Notions of the specification *)

Definition ends_with_slash (s : string) : bool :=
  match String.get (String.length s - 1) s with
  | Some c => eqb_ascii c slash
  | None => false
  end.

(** Path-boundary-aware containment: [p] is [root], or continues [root]
    with a separator; a root that itself ends in the separator (only ["/"]
    among cleaned paths) contains every path it prefixes. *)
Definition boundary_contained (root p : string) : bool :=
  String.eqb p root || has_prefix p (root ++ "/")
  || (ends_with_slash root && has_prefix p root).

(** How a browser resolves an [href] path on the page at [page] (RFC 3986,
    5.2.2-5.2.3, for a reference that is a path without dot segments): an
    absolute path replaces the page path, a relative one replaces the last
    segment of the page path. *)
Definition resolve_href (page href : string) : string :=
  if has_prefix href "/" then href
  else join_sep (removelast (split_sep page)) ++ "/" ++ href.

(** The MIME table of the specification, by extension, matched
    case-insensitively; anything else is application/octet-stream. *)
Definition spec_mime_table : list (list string * string) :=
  [([".html"; ".htm"], "text/html");
   ([".css"], "text/css");
   ([".js"], "application/javascript");
   ([".json"], "application/json");
   ([".png"], "image/png");
   ([".jpg"; ".jpeg"], "image/jpeg");
   ([".gif"], "image/gif");
   ([".svg"], "image/svg+xml");
   ([".pdf"], "application/pdf");
   ([".txt"], "text/plain");
   ([".md"], "text/markdown")].

(** The specification's lookup, with "case-insensitive" read as
    [strings.EqualFold]: equality under simple Unicode case folding. *)
Definition spec_mime (extension : string) : string :=
  match find (fun entry => existsb (equal_fold_ascii extension) (fst entry)) spec_mime_table with
  | Some (_, t) => t
  | None => "application/octet-stream"
  end.

(** A rune of an extension against a byte of a (lower-case ASCII) key,
    compared after lower-casing: the byte itself, its upper case, and
    the two code points outside ASCII whose lower case is ASCII, U+0130
    for 'i' and U+212A for 'k'. *)
Definition lower_matches (r : Z) (c : ascii) : bool :=
  let n := zb c in
  Z.eqb r n || (Z.leb 97 n && Z.leb n 122 && Z.eqb r (n - 32)%Z)
  || (Z.eqb n 105 && Z.eqb r 0x130) || (Z.eqb n 107 && Z.eqb r 0x212A).

Fixpoint lower_matches_units (u : list utf8_unit) (t : list ascii) : bool :=
  match u, t with
  | [], [] => true
  | Rune r :: u', c :: t' => lower_matches r c && lower_matches_units u' t'
  | _, _ => false
  end.

Definition lower_matches_ascii (s t : string) : bool :=
  lower_matches_units (utf8_units (list_ascii_of_string s)) (list_ascii_of_string t).

(** The table matched by lower-casing rune by rune. *)
Definition spec_mime_lower (extension : string) : string :=
  match find (fun entry => existsb (lower_matches_ascii extension) (fst entry)) spec_mime_table with
  | Some (_, t) => t
  | None => "application/octet-stream"
  end.

Definition info_ok (e : dir_entry) : bool :=
  match de_info e with inl _ => false | inr _ => true end.

Definition is_entry_row (r : row) : bool :=
  match r with EntryRow _ => true | ParentRow _ => false end.

(** Two environments a request cannot tell apart. *)
Definition env_equiv (e1 e2 : Env) : Prop :=
  getwd e1 = getwd e2 /\ (forall p, stat e1 p = stat e2 p) /\
  (forall p, open e1 p = open e2 p) /\ (forall p, read_dir e1 p = read_dir e2 p) /\
  local_offset e1 = local_offset e2.

(** ** A concrete serve root

    /srv/files holds README.md (a file) and docs/ (a directory with one
    file, guide.txt, and one entry, lost.tmp, removed before its [Info()]
    is read). *)

Definition mk_info (d : bool) (size mtime : Z) : os_file_info :=
  {| fi_is_dir := d; fi_size := size; fi_mod_time := mtime |}.

Definition docs_entries : list dir_entry :=
  [{| de_name := "guide.txt"; de_is_dir := false; de_info := inr (mk_info false 2048 1700000000) |};
   {| de_name := "lost.tmp"; de_is_dir := false;
      de_info := inl "lstat /srv/files/docs/lost.tmp: no such file or directory" |}].

Definition root_entries : list dir_entry :=
  [{| de_name := "README.md"; de_is_dir := false; de_info := inr (mk_info false 5 1700000000) |};
   {| de_name := "docs"; de_is_dir := true; de_info := inr (mk_info true 4096 1700000000) |}].

Definition example_env : Env := {|
  getwd := Some "/home/user";
  stat := fun p =>
    if String.eqb p "/srv/files" then inr (mk_info true 4096 1700000000)
    else if String.eqb p "/srv/files/docs" then inr (mk_info true 4096 1700000000)
    else if String.eqb p "/srv/files/README.md" then inr (mk_info false 5 1700000000)
    else if String.eqb p "/srv/files/docs/guide.txt" then inr (mk_info false 2048 1700000000)
    else if String.eqb p "/srv/files/README.md/x" then inl ENOTDIR
    else inl ENOENT;
  open := fun p =>
    if String.eqb p "/srv/files/README.md" then
      inr {| of_stat := inr (mk_info false 5 1700000000); of_data := "hello" |}
    else inl ("open " ++ p ++ ": no such file or directory");
  read_dir := fun p =>
    if String.eqb p "/srv/files" then inr root_entries
    else if String.eqb p "/srv/files/docs" then inr docs_entries
    else inl ("open " ++ p ++ ": no such file or directory");
  local_offset := 0 |}.

(** A path element that [filepath.Clean] writes and keeps: not empty,
    not ["."] or [".."], without a separator. *)
Definition good_elem (e : string) : bool :=
  negb (String.eqb e "") && negb (String.eqb e ".") && negb (String.eqb e "..")
  && negb (contains e "/").

(** The elements [Clean] keeps when there is no [".."] among them. *)
Definition kept_elem (e : string) : bool := negb (String.eqb e "" || String.eqb e ".").

(** The listing order of the specification: directories before files,
    each group ascending by name (Go's byte-wise string order). *)
Definition listed_before (a b : FileInfo) : Prop :=
  (IsDir a = true /\ IsDir b = false) \/
  (IsDir a = IsDir b /\ String.compare (Name a) (Name b) = Lt).

(** The same environment, its calls written out again. *)
Definition example_env_copy : Env := {|
  getwd := getwd example_env;
  stat := fun p => stat example_env p;
  open := fun p => open example_env p;
  read_dir := fun p => read_dir example_env p;
  local_offset := local_offset example_env |}.

(** * Proofs *)

(** ** Byte strings *)

Module StrFacts.

Lemma app_assoc (a b c : string) : (a ++ b) ++ c = a ++ (b ++ c).
Proof. induction a; simpl; congruence. Qed.

Lemma app_empty_r (a : string) : a ++ "" = a.
Proof. induction a; simpl; congruence. Qed.

Lemma prefix_app (s t : string) : String.prefix s (s ++ t) = true.
Proof.
  induction s; simpl; [destruct t; reflexivity|].
  destruct (ascii_dec a a); [assumption | congruence].
Qed.

Lemma prefix_app_inv (s t u : string) :
  String.prefix (s ++ t) u = true -> String.prefix s u = true.
Proof.
  revert u; induction s as [|a s IH]; intros u H.
  - destruct u; reflexivity.
  - destruct u as [|b u]; [discriminate|].
    simpl in H |- *. destruct (ascii_dec a b); [apply (IH u H) | discriminate].
Qed.

Lemma prefix_empty (s : string) : String.prefix "" s = true.
Proof. destruct s; reflexivity. Qed.

Lemma prefix_exists (h s : string) :
  String.prefix h s = true -> exists post, s = h ++ post.
Proof.
  revert s; induction h as [|a h IH]; intros s H; [exists s; reflexivity|].
  destruct s as [|b s]; [discriminate|].
  simpl in H. destruct (ascii_dec a b) as [<-|]; [|discriminate].
  destruct (IH s H) as [post ->]. exists post; reflexivity.
Qed.

Lemma contains_String (c : ascii) (s sub : string) :
  contains (String c s) sub = String.prefix sub (String c s) || contains s sub.
Proof. reflexivity. Qed.

(** [contains] grows along prefixes and suffixes. *)
Lemma contains_app_r (a b sub : string) :
  contains a sub = true -> contains (a ++ b) sub = true.
Proof.
  induction a as [|c a IH]; intros H.
  - simpl in H. destruct sub; [|discriminate].
    destruct b; reflexivity.
  - change (String c a ++ b) with (String c (a ++ b)).
    rewrite contains_String in H |- *. apply orb_true_iff in H as [H|H].
    + apply orb_true_iff; left.
      destruct (prefix_exists _ _ H) as [post E].
      change (String c (a ++ b)) with (String c a ++ b).
      rewrite E, app_assoc. apply prefix_app.
    + apply orb_true_iff; right. apply IH, H.
Qed.

Lemma contains_app_l (a b sub : string) :
  contains b sub = true -> contains (a ++ b) sub = true.
Proof.
  induction a as [|c a IH]; intros H; [exact H|].
  change (String c a ++ b) with (String c (a ++ b)).
  rewrite contains_String. apply orb_true_iff; right. apply IH, H.
Qed.

Lemma split_sep_cons (s : string) : exists h t, split_sep s = h :: t.
Proof.
  destruct s as [|c s]; simpl; [eauto|].
  destruct (eqb_ascii c slash); [eauto|].
  destruct (split_sep s); eauto.
Qed.

Lemma split_sep_String (c : ascii) (s : string) :
  split_sep (String c s) =
  if eqb_ascii c slash then EmptyString :: split_sep s
  else match split_sep s with
       | h :: t => String c h :: t
       | [] => [String c EmptyString]
       end.
Proof. reflexivity. Qed.

Lemma split_sep_app_slash (a b : string) :
  split_sep (a ++ "/" ++ b) = (split_sep a ++ split_sep b)%list.
Proof.
  induction a as [|c a IH]; [reflexivity|].
  change (String c a ++ "/" ++ b) with (String c (a ++ "/" ++ b)).
  rewrite !split_sep_String, IH.
  destruct (eqb_ascii c slash); [reflexivity|].
  destruct (split_sep_cons a) as (h & t & ->). reflexivity.
Qed.

Lemma split_sep_head_prefix (s h : string) (t : list string) :
  split_sep s = h :: t -> String.prefix h s = true.
Proof.
  revert h t; induction s as [|c s IH]; intros h t E; simpl in E.
  - injection E as <- _; reflexivity.
  - destruct (eqb_ascii c slash).
    + injection E as <- _; reflexivity.
    + destruct (split_sep s) as [|h' t'] eqn:Es.
      * injection E as <- _. simpl. destruct (ascii_dec c c); [|congruence].
        destruct s; reflexivity.
      * injection E as <- _. simpl. destruct (ascii_dec c c); [|congruence].
        apply (IH h' t' eq_refl).
Qed.

(** Every piece of [strings.Split] occurs in the string. *)
Lemma split_sep_piece (s e : string) :
  In e (split_sep s) -> exists pre post, s = pre ++ e ++ post.
Proof.
  induction s as [|c s IH]; intros Hin.
  - simpl in Hin. destruct Hin as [<-|[]]. exists "", ""; reflexivity.
  - simpl in Hin. destruct (eqb_ascii c slash).
    + destruct Hin as [<-|Hin].
      * exists "", (String c s); reflexivity.
      * destruct (IH Hin) as (pre & post & ->).
        exists (String c pre), post; reflexivity.
    + destruct (split_sep s) as [|h t] eqn:Es.
      * destruct (split_sep_cons s) as (? & ? & E'); congruence.
      * destruct Hin as [<-|Hin].
        -- destruct (prefix_exists _ _ (split_sep_head_prefix s h t Es)) as [post ->].
           exists "", post; reflexivity.
        -- destruct IH as (pre & post & ->); [right; exact Hin|].
           exists (String c pre), post; reflexivity.
Qed.

Lemma split_sep_contains (s e sub : string) :
  In e (split_sep s) -> contains e sub = true -> contains s sub = true.
Proof.
  intros Hin Hc. destruct (split_sep_piece s e Hin) as (pre & post & ->).
  apply contains_app_l, contains_app_r, Hc.
Qed.

End StrFacts.

(** ** path/filepath *)

Module PathFacts.
Import StrFacts FilePath.

Lemma prefix_slash_String (c : ascii) (h : string) :
  eqb_ascii c slash = false -> String.prefix "/" (String c h) = false.
Proof.
  unfold eqb_ascii, slash. intros E.
  change (String.prefix "/" (String c h)) with
    (if ascii_dec "/" c then String.prefix "" h else false).
  destruct (ascii_dec "/" c) as [<-|]; [|reflexivity].
  destruct (ascii_dec "/" "/"); congruence.
Qed.

Lemma split_sep_no_slash (s e : string) :
  In e (split_sep s) -> contains e "/" = false.
Proof.
  revert e; induction s as [|c s IH]; intros e Hin.
  - destruct Hin as [<-|[]]; reflexivity.
  - rewrite split_sep_String in Hin.
    destruct (eqb_ascii c slash) eqn:Ec.
    + destruct Hin as [<-|Hin]; [reflexivity | apply IH, Hin].
    + destruct (split_sep s) as [|h t] eqn:Es.
      * destruct (split_sep_cons s) as (? & ? & E'); congruence.
      * destruct Hin as [<-|Hin]; [|apply IH; right; exact Hin].
        rewrite contains_String, prefix_slash_String by exact Ec.
        apply IH; left; reflexivity.
Qed.

Lemma split_sep_single (e : string) :
  contains e "/" = false -> split_sep e = [e].
Proof.
  induction e as [|c e IH]; intros H; [reflexivity|].
  rewrite contains_String in H. apply orb_false_iff in H as [H1 H2].
  rewrite split_sep_String, (IH H2).
  destruct (eqb_ascii c slash) eqn:Ec; [|reflexivity].
  unfold eqb_ascii, slash in Ec. destruct (ascii_dec c "/") as [->|]; [|discriminate].
  change (String "/" e) with ("/" ++ e) in H1. rewrite prefix_app in H1.
  discriminate.
Qed.

Lemma split_sep_join (L : list string) :
  Forall (fun e => contains e "/" = false) L -> L <> [] ->
  split_sep (join_sep L) = L.
Proof.
  induction L as [|x L IH]; intros HF Hne; [congruence|].
  inversion HF as [|? ? Hx HL]; subst.
  destruct L as [|y L].
  - apply split_sep_single, Hx.
  - change (join_sep (x :: y :: L)) with (x ++ "/" ++ join_sep (y :: L)).
    rewrite split_sep_app_slash, split_sep_single by exact Hx.
    rewrite IH by (assumption || discriminate). reflexivity.
Qed.

Lemma clean_step_good (r : bool) (st : list string) (e : string) :
  good_elem e = true -> clean_step r st e = e :: st.
Proof.
  unfold good_elem, clean_step. intros H.
  destruct (String.eqb e ""), (String.eqb e "."), (String.eqb e ".."); simpl in *;
    congruence.
Qed.

Lemma fold_clean_good (r : bool) (L st : list string) :
  Forall (fun e => good_elem e = true) L ->
  fold_left (clean_step r) L st = (rev L ++ st)%list.
Proof.
  revert st; induction L as [|e L IH]; intros st HF; [reflexivity|].
  inversion HF; subst. simpl. rewrite clean_step_good by assumption.
  rewrite IH by assumption. rewrite <- List.app_assoc. reflexivity.
Qed.

Lemma fold_clean_no_dotdot (r : bool) (L st : list string) :
  Forall (fun e => e <> "..") L ->
  fold_left (clean_step r) L st = (rev (filter kept_elem L) ++ st)%list.
Proof.
  revert st; induction L as [|e L IH]; intros st HF; [reflexivity|].
  inversion HF as [|? ? He HL]; subst. simpl.
  rewrite IH by assumption. unfold clean_step, kept_elem.
  destruct (String.eqb e "" || String.eqb e ".") eqn:Ek; simpl; [reflexivity|].
  destruct (String.eqb e "..") eqn:Ed.
  - apply String.eqb_eq in Ed; contradiction.
  - simpl. rewrite <- List.app_assoc. reflexivity.
Qed.

Lemma fold_clean_rooted_good (L st : list string) :
  Forall (fun e => contains e "/" = false) L ->
  Forall (fun e => good_elem e = true) st ->
  Forall (fun e => good_elem e = true) (fold_left (clean_step true) L st).
Proof.
  revert st; induction L as [|e L IH]; intros st HL Hst; [exact Hst|].
  inversion HL as [|? ? He HL']; subst. simpl. apply IH; [assumption|].
  unfold clean_step.
  destruct (String.eqb e "" || String.eqb e ".") eqn:Ek; [exact Hst|].
  destruct (String.eqb e "..") eqn:Ed.
  - destruct st as [|top rest]; [constructor|].
    inversion Hst; subst.
    destruct (String.eqb top ".."); [exact Hst | assumption].
  - constructor; [|exact Hst].
    apply orb_false_iff in Ek as [E1 E2].
    unfold good_elem. rewrite E1, E2, Ed, He. reflexivity.
Qed.

Lemma good_no_slash (e : string) : good_elem e = true -> contains e "/" = false.
Proof.
  unfold good_elem. intros H. destruct (contains e "/"); [|reflexivity].
  rewrite !andb_true_iff in H. destruct H as [_ H]; discriminate.
Qed.

Lemma is_abs_slash (s : string) : is_abs ("/" ++ s) = true.
Proof. apply prefix_app. Qed.

(** A rooted path of kept elements is already clean. *)
Lemma clean_canonical (L : list string) :
  Forall (fun e => good_elem e = true) L ->
  clean ("/" ++ join_sep L) = "/" ++ join_sep L.
Proof.
  intros HL. unfold clean. rewrite is_abs_slash.
  change ("/" ++ join_sep L) with ("" ++ "/" ++ join_sep L).
  rewrite split_sep_app_slash.
  destruct L as [|x L].
  - reflexivity.
  - rewrite split_sep_join.
    + change (fold_left (clean_step true) (split_sep "" ++ x :: L)%list [])
        with (fold_left (clean_step true) (x :: L) []).
      rewrite fold_clean_good by exact HL.
      rewrite List.app_nil_r, rev_involutive. reflexivity.
    + eapply Forall_impl; [|exact HL]. intros e; apply good_no_slash.
    + discriminate.
Qed.

Lemma clean_rooted (p : string) :
  is_abs p = true ->
  clean p = "/" ++ join_sep (rev (fold_left (clean_step true) (split_sep p) [])).
Proof. unfold clean. intros ->. reflexivity. Qed.

Lemma clean_rooted_good (p : string) :
  Forall (fun e => good_elem e = true) (fold_left (clean_step true) (split_sep p) []).
Proof.
  apply fold_clean_rooted_good; [|constructor].
  apply Forall_forall. intros e; apply split_sep_no_slash.
Qed.

End PathFacts.

(** ** Containment of the candidate path *)

Module Containment.
Import StrFacts FilePath PathFacts.

Lemma join_sep_app (A F : list string) :
  A <> [] -> F <> [] -> join_sep (A ++ F)%list = join_sep A ++ "/" ++ join_sep F.
Proof.
  intros HA HF. induction A as [|x A IH]; [congruence|].
  destruct A as [|y A].
  - destruct F as [|f F]; [congruence|]. reflexivity.
  - change (join_sep ((x :: y :: A) ++ F)%list)
      with (x ++ "/" ++ join_sep ((y :: A) ++ F)%list).
    rewrite IH by discriminate.
    change (join_sep (x :: y :: A)) with (x ++ "/" ++ join_sep (y :: A)).
    rewrite !app_assoc. reflexivity.
Qed.

Lemma no_dotdot_elems (path : string) :
  contains path ".." = false -> Forall (fun e => e <> "..") (split_sep path).
Proof.
  intros H. apply Forall_forall. intros e Hin ->.
  assert (contains path ".." = true) by (apply (split_sep_contains _ _ _ Hin); reflexivity).
  congruence.
Qed.

Lemma kept_good (path : string) :
  contains path ".." = false ->
  Forall (fun e => good_elem e = true) (filter kept_elem (split_sep path)).
Proof.
  intros H. apply Forall_forall. intros e Hin.
  apply filter_In in Hin as [Hin Hk].
  pose proof (split_sep_no_slash _ _ Hin) as Hs.
  pose proof (Forall_forall (fun e => e <> "..") (split_sep path)) as [HF _].
  specialize (HF (no_dotdot_elems path H) e Hin).
  unfold kept_elem in Hk. apply negb_true_iff, orb_false_iff in Hk as [E1 E2].
  unfold good_elem. rewrite E1, E2, Hs.
  destruct (String.eqb_spec e ".."); [contradiction | reflexivity].
Qed.

(** The candidate path of [ServeHTTP] when the traversal check passes: the
    cleaned serve root followed by the kept elements of the request. *)
Lemma candidate_form (wd : option string) (servePath path : string) :
  is_abs servePath = true -> contains path ".." = false ->
  let S := rev (fold_left (clean_step true) (split_sep servePath) []) in
  abs wd (join servePath path) =
    Some ("/" ++ join_sep (S ++ filter kept_elem (split_sep path))%list)
  /\ clean servePath = "/" ++ join_sep S.
Proof.
  intros Habs Hdd S. split; [|apply clean_rooted, Habs].
  destruct (prefix_exists _ _ Habs) as [post Ep].
  unfold join. rewrite Ep. simpl negb. cbv iota.
  rewrite <- Ep.
  assert (Habs' : is_abs (servePath ++ "/" ++ path) = true)
    by (rewrite Ep, app_assoc; apply is_abs_slash).
  rewrite (clean_rooted _ Habs'), split_sep_app_slash, fold_left_app.
  rewrite (fold_clean_no_dotdot true _ _ (no_dotdot_elems path Hdd)).
  rewrite rev_app_distr, rev_involutive. fold S.
  unfold abs. rewrite is_abs_slash. f_equal.
  apply clean_canonical, Forall_app. split.
  - apply Forall_rev, clean_rooted_good.
  - apply kept_good, Hdd.
Qed.

Lemma boundary_join (A F : list string) :
  boundary_contained ("/" ++ join_sep A) ("/" ++ join_sep (A ++ F)%list) = true.
Proof.
  unfold boundary_contained.
  destruct A as [|x A].
  - apply orb_true_iff; right. apply prefix_app.
  - destruct F as [|f F].
    + rewrite List.app_nil_r, String.eqb_refl. reflexivity.
    + apply orb_true_iff; left. apply orb_true_iff; right.
      rewrite join_sep_app by discriminate. unfold has_prefix.
      replace ("/" ++ join_sep (x :: A) ++ "/" ++ join_sep (f :: F))
        with (("/" ++ join_sep (x :: A) ++ "/") ++ join_sep (f :: F))
        by (rewrite !app_assoc; reflexivity).
      apply prefix_app.
Qed.

Lemma boundary_prefix (root p : string) :
  boundary_contained root p = true -> has_prefix p root = true.
Proof.
  unfold boundary_contained. intros H.
  apply orb_true_iff in H as [H|H]; [apply orb_true_iff in H as [H|H]|].
  - apply String.eqb_eq in H as ->. unfold has_prefix.
    rewrite <- (app_empty_r root) at 2. apply prefix_app.
  - apply (prefix_app_inv root "/"), H.
  - apply andb_true_iff in H as [_ H]. exact H.
Qed.

Lemma candidate_contained (wd : option string) (servePath path : string) :
  is_abs servePath = true -> contains path ".." = false ->
  exists absPath, abs wd (join servePath path) = Some absPath /\
                  boundary_contained (clean servePath) absPath = true.
Proof.
  intros Habs Hdd.
  destruct (candidate_form wd servePath path Habs Hdd) as [E1 E2].
  eexists; split; [exact E1|]. rewrite E2. apply boundary_join.
Qed.

End Containment.

(** ** Ordering of the listing *)

Module SortFacts.

Lemma ascii_compare_lt_trans (x y z : ascii) :
  Ascii.compare x y = Lt -> Ascii.compare y z = Lt -> Ascii.compare x z = Lt.
Proof.
  unfold Ascii.compare. rewrite !N.compare_lt_iff. lia.
Qed.

Lemma ascii_compare_eq (x y : ascii) : Ascii.compare x y = Eq -> x = y.
Proof. apply Ascii.compare_eq_iff. Qed.

Lemma ascii_compare_refl (x : ascii) : Ascii.compare x x = Eq.
Proof. unfold Ascii.compare. apply N.compare_refl. Qed.

Lemma compare_refl (a : string) : String.compare a a = Eq.
Proof. induction a as [|x a IH]; simpl; [reflexivity|]. rewrite ascii_compare_refl. exact IH. Qed.

Lemma compare_lt_trans (a b c : string) :
  String.compare a b = Lt -> String.compare b c = Lt -> String.compare a c = Lt.
Proof.
  revert b c; induction a as [|x a IH]; intros b c H1 H2;
    destruct b as [|y b]; destruct c as [|z c]; simpl in *;
    try discriminate; try reflexivity.
  destruct (Ascii.compare x y) eqn:Exy; try discriminate;
  destruct (Ascii.compare y z) eqn:Eyz; try discriminate.
  - apply ascii_compare_eq in Exy, Eyz; subst.
    rewrite ascii_compare_refl. apply (IH b c H1 H2).
  - apply ascii_compare_eq in Exy; subst. rewrite Eyz. reflexivity.
  - apply ascii_compare_eq in Eyz; subst. rewrite Exy. reflexivity.
  - rewrite (ascii_compare_lt_trans x y z Exy Eyz). reflexivity.
Qed.

Lemma compare_total (a b : string) :
  a <> b -> String.compare a b = Lt \/ String.compare b a = Lt.
Proof.
  intros Hne. rewrite String.compare_antisym.
  destruct (String.compare b a) eqn:E; simpl; auto.
  apply String.compare_eq_iff in E. congruence.
Qed.

Lemma file_less_spec (a b : FileInfo) : file_less a b = true <-> listed_before a b.
Proof.
  unfold file_less, listed_before.
  destruct (IsDir a), (IsDir b); simpl;
    destruct (String.compare (Name a) (Name b)); intuition congruence.
Qed.

Lemma file_less_irrefl (a : FileInfo) : file_less a a = false.
Proof.
  unfold file_less. rewrite Bool.eqb_reflx, compare_refl. reflexivity.
Qed.

Lemma file_less_trans (a b c : FileInfo) :
  file_less a b = true -> file_less b c = true -> file_less a c = true.
Proof.
  rewrite !file_less_spec. unfold listed_before.
  intros [[Ha Hb]|[Hab Hn1]] [[Hb' Hc]|[Hbc Hn2]]; try congruence.
  - left; split; congruence.
  - left; split; congruence.
  - right; split; [congruence | eapply compare_lt_trans; eassumption].
Qed.

Lemma file_less_total (a b : FileInfo) :
  Name a <> Name b -> file_less a b = true \/ file_less b a = true.
Proof.
  intros Hne. rewrite !file_less_spec. unfold listed_before.
  destruct (IsDir a) eqn:Ea, (IsDir b) eqn:Eb; auto;
    destruct (compare_total _ _ Hne); auto.
Qed.

Lemma insert_file_perm (x : FileInfo) (l : list FileInfo) :
  Permutation (insert_file x l) (x :: l).
Proof.
  induction l as [|y l IH]; simpl; [reflexivity|].
  destruct (file_less y x); [|reflexivity].
  rewrite IH. apply perm_swap.
Qed.

Lemma sort_files_perm (l : list FileInfo) : Permutation (sort_files l) l.
Proof.
  induction l as [|x l IH]; simpl; [reflexivity|].
  rewrite insert_file_perm, IH. reflexivity.
Qed.

Definition before (a b : FileInfo) : Prop := file_less a b = true.

Lemma insert_file_sorted (x : FileInfo) (l : list FileInfo) :
  StronglySorted before l -> (forall y, In y l -> Name y <> Name x) ->
  StronglySorted before (insert_file x l).
Proof.
  induction l as [|y l IH]; intros Hs Hn; simpl.
  - repeat constructor.
  - inversion Hs as [|? ? Hs' Hall]; subst.
    destruct (file_less y x) eqn:Eyx.
    + constructor.
      * apply IH; [exact Hs'|]. intros z Hz; apply Hn; right; exact Hz.
      * apply Forall_forall. intros z Hz.
        apply (Permutation_in _ (insert_file_perm x l)) in Hz as [<-|Hz];
          [exact Eyx | exact (proj1 (Forall_forall _ _) Hall z Hz)].
    + assert (Hxy : file_less x y = true).
      { destruct (file_less_total x y) as [H|H]; [|congruence|congruence].
        intros E; apply (Hn y); [left; reflexivity | symmetry; exact E]. }
      constructor; [exact Hs|].
      constructor; [exact Hxy|].
      apply Forall_forall. intros z Hz.
      apply (file_less_trans x y z Hxy), (proj1 (Forall_forall _ _) Hall z Hz).
Qed.

Lemma sort_files_sorted (l : list FileInfo) :
  NoDup (map Name l) -> StronglySorted before (sort_files l).
Proof.
  induction l as [|x l IH]; intros Hnd; simpl; [constructor|].
  inversion Hnd as [|? ? Hx Hnd']; subst.
  apply insert_file_sorted; [apply IH, Hnd'|].
  intros y Hy E. apply Hx. rewrite <- E. apply in_map.
  apply (Permutation_in _ (sort_files_perm l)), Hy.
Qed.

Lemma build_files_names (urlPath : string) (entries : list dir_entry) :
  map Name (build_files urlPath entries) = map de_name (filter info_ok entries).
Proof.
  induction entries as [|e es IH]; [reflexivity|].
  simpl. unfold info_ok at 1. destruct (de_info e); simpl; [exact IH|].
  f_equal; exact IH.
Qed.

Lemma readable_names_NoDup (es : list dir_entry) :
  NoDup (map de_name es) -> NoDup (map de_name (filter info_ok es)).
Proof.
  induction es as [|e es IH]; intros Hnd; [constructor|].
  inversion Hnd as [|? ? He Hes]; subst. cbn [filter].
  destruct (info_ok e); cbn [map]; [|apply IH, Hes].
  constructor; [|apply IH, Hes].
  rewrite in_map_iff. intros (e' & Ee & Hin).
  apply filter_In in Hin as [Hin _]. apply He. rewrite <- Ee. apply in_map, Hin.
Qed.

Lemma build_files_In (urlPath : string) (entries : list dir_entry) (f : FileInfo) :
  In f (build_files urlPath entries) ->
  exists e info, In e entries /\ de_info e = inr info /\
    f = {| Name := de_name e; IsDir := de_is_dir e; Size := fi_size info;
           ModTime := fi_mod_time info; URL := entry_URL urlPath e |}.
Proof.
  induction entries as [|e es IH]; simpl; [intros []|].
  destruct (de_info e) as [|info] eqn:Ei.
  - intros H. destruct (IH H) as (e' & i' & H1 & H2 & H3).
    exists e', i'. auto.
  - intros [<-|H].
    + exists e, info. auto.
    + destruct (IH H) as (e' & i' & H1 & H2 & H3). exists e', i'. auto.
Qed.

Lemma sorted_listed_before (l : list FileInfo) :
  StronglySorted before l -> StronglySorted listed_before l.
Proof.
  induction 1 as [|x l _ IH Hall]; constructor; [exact IH|].
  eapply Forall_impl; [|exact Hall]. intros a H. apply file_less_spec, H.
Qed.

End SortFacts.

(** ** Rounding *)

Module RoundFacts.

Lemma round_half_even_bound (a b : Z) :
  (0 < b)%Z -> (Z.abs (2 * (round_half_even a b * b - a)) <= b)%Z.
Proof.
  intros Hb. unfold round_half_even.
  pose proof (Z.div_mod a b ltac:(lia)) as Ea.
  pose proof (Z.mod_pos_bound a b Hb) as Hr.
  set (q := (a / b)%Z) in *. set (r := (a mod b)%Z) in *.
  destruct (Z.ltb_spec b (2 * r)); [nia|].
  destruct (Z.ltb_spec (2 * r) b); [nia|].
  destruct (Z.even q); nia.
Qed.

Lemma float64_of_int_exact (n : Z) :
  (0 <= n < 2 ^ 53)%Z -> float64_of_int n = n.
Proof.
  intros Hn. unfold float64_of_int.
  rewrite Z.abs_eq by lia. destruct (Z.ltb_spec n (2 ^ 53)); [reflexivity | lia].
Qed.

End RoundFacts.

Module LowerFacts.

Lemma land_byte (z : Z) : (0 <= Z.land z 0xFF < 256)%Z.
Proof.
  change 0xFF%Z with (Z.ones 8). rewrite Z.land_ones by lia.
  apply Z.mod_pos_bound. lia.
Qed.

Lemma byte_of_nat (z : Z) :
  nat_of_ascii (byte_of z) = Z.to_nat (Z.land z 0xFF).
Proof.
  unfold byte_of. apply nat_ascii_embedding.
  pose proof (land_byte z). lia.
Qed.

(** A byte whose bit 7 is set is not ASCII. *)
Lemma byte_of_high (z : Z) :
  Z.testbit z 7 = true -> 128 <= nat_of_ascii (byte_of z).
Proof.
  intros Hb. rewrite byte_of_nat. pose proof (land_byte z) as Hr.
  assert (Ht : Z.testbit (Z.land z 0xFF) 7 = true)
    by (rewrite Z.land_spec, Hb; reflexivity).
  destruct (Z.ltb_spec (Z.land z 0xFF) 128) as [Hlt | Hge]; [|lia].
  rewrite Z.testbit_eqb in Ht by lia. change (2 ^ 7)%Z with 128%Z in Ht.
  rewrite Z.div_small in Ht by lia.
  discriminate.
Qed.

Lemma lor_high (a x : Z) : Z.testbit a 7 = true -> Z.testbit (Z.lor a x) 7 = true.
Proof. intros H. rewrite Z.lor_spec, H. reflexivity. Qed.

(** Every rune outside ASCII, and every value encoded as [RuneError],
    starts with a non-ASCII byte. *)
Lemma encode_high (v : Z) :
  (v < 0 \/ 128 <= v)%Z ->
  exists b rest, utf8_encode v = b :: rest /\ 128 <= nat_of_ascii b.
Proof.
  intros Hv. unfold utf8_encode, utf8_encode3.
  destruct (Z.ltb_spec v 0); [eexists _, _; split; [reflexivity|];
    apply byte_of_high, lor_high; reflexivity|].
  destruct (Z.leb_spec v 0x7F); [lia|].
  destruct (Z.leb_spec v 0x7FF);
    [eexists _, _; split; [reflexivity|]; apply byte_of_high, lor_high; reflexivity|].
  destruct (Z.ltb 0x10FFFF v || (Z.leb 0xD800 v && Z.leb v 0xDFFF));
    [eexists _, _; split; [reflexivity|]; apply byte_of_high, lor_high; reflexivity|].
  destruct (Z.leb v 0xFFFF);
    eexists _, _; (split; [reflexivity|]); apply byte_of_high, lor_high; reflexivity.
Qed.

Lemma encode_ascii (v : Z) :
  (0 <= v <= 127)%Z -> utf8_encode v = [ascii_of_nat (Z.to_nat v)].
Proof.
  intros Hv. unfold utf8_encode.
  destruct (Z.ltb_spec v 0); [lia|]. destruct (Z.leb_spec v 0x7F); [|lia].
  unfold byte_of. change 0xFF%Z with (Z.ones 8). rewrite Z.land_ones by lia.
  rewrite Z.mod_small by (change (2 ^ 8)%Z with 256%Z; lia). reflexivity.
Qed.

(** Every entry of [lower_ranges] lands outside ASCII, except the two
    single code points U+0130 and U+212A. *)
Definition range_ok (e : Z * Z * Z * Z) : bool :=
  let '(lo, hi, _, d) := e in
  Z.leb 128 (lo + d) || (Z.eqb lo hi && (Z.eqb lo 0x130 || Z.eqb lo 0x212A)).

Lemma lower_ranges_ok : forallb range_ok lower_ranges = true.
Proof. vm_compute. reflexivity. Qed.

Lemma unicode_lower_high (r : Z) :
  (128 <= r)%Z -> r <> 0x130%Z -> r <> 0x212A%Z -> (128 <= unicode_lower r)%Z.
Proof.
  intros H1 H2 H3. unfold unicode_lower.
  destruct (Z.leb_spec r 0x7F); [lia|].
  destruct (find (fun e => in_case_range e r) lower_ranges)
    as [[[[lo hi] st] d]|] eqn:F; [|lia].
  apply find_some in F as [Hin Hr].
  pose proof lower_ranges_ok as Hok. rewrite forallb_forall in Hok.
  specialize (Hok _ Hin). cbn in Hok, Hr.
  apply andb_true_iff in Hr as [Hr _]. apply andb_true_iff in Hr as [Hlo Hhi].
  apply Z.leb_le in Hlo. apply Z.leb_le in Hhi.
  apply orb_true_iff in Hok as [Hok | Hok]; [apply Z.leb_le in Hok; lia|].
  apply andb_true_iff in Hok as [Heq Hs]. apply Z.eqb_eq in Heq.
  apply orb_true_iff in Hs as [Hs | Hs]; apply Z.eqb_eq in Hs; lia.
Qed.

Lemma lower_matches_spec (r : Z) (c : ascii) :
  lower_matches r c = true <->
  (r = zb c \/ (97 <= zb c <= 122 /\ r = zb c - 32) \/
   (zb c = 105 /\ r = 0x130) \/ (zb c = 107 /\ r = 0x212A))%Z.
Proof.
  unfold lower_matches.
  rewrite !orb_true_iff, !andb_true_iff, !Z.eqb_eq, !Z.leb_le. tauto.
Qed.

Lemma zb_bound (c : ascii) : (0 <= zb c < 256)%Z.
Proof. unfold zb. pose proof (nat_ascii_bounded c). lia. Qed.

Lemma zb_inj (c d : ascii) : zb c = zb d -> c = d.
Proof.
  unfold zb. intros H. rewrite <- (ascii_nat_embedding c), <- (ascii_nat_embedding d).
  f_equal. lia.
Qed.

(** A key byte: ASCII and not an upper-case letter. *)
Definition key_byte (c : ascii) : bool :=
  Nat.ltb (nat_of_ascii c) 128 &&
  negb (Nat.leb 65 (nat_of_ascii c) && Nat.leb (nat_of_ascii c) 90).

Definition unit_matches (u : utf8_unit) (c : ascii) : bool :=
  match u with Rune r => lower_matches r c | Bad => false end.

Lemma lower_matches_units_cons (u : utf8_unit) (U : list utf8_unit) (c : ascii) t :
  lower_matches_units (u :: U) (c :: t) = unit_matches u c && lower_matches_units U t.
Proof. destruct u; reflexivity. Qed.

Lemma lower_matches_units_nil (u : utf8_unit) (U : list utf8_unit) :
  lower_matches_units (u :: U) [] = false.
Proof. destruct u; reflexivity. Qed.

(** The lower-cased output of one rune: either a single ASCII byte,
    which a key byte equals exactly when the rune matches it, or a
    sequence that starts with a non-ASCII byte and matches no ASCII
    byte. *)
Lemma lower_unit_cases (u : utf8_unit) :
  (exists b rest, lower_unit u = b :: rest /\ 128 <= nat_of_ascii b /\
     forall c, nat_of_ascii c < 128 -> unit_matches u c = false) \/
  (exists c', lower_unit u = [c'] /\
     forall c, key_byte c = true -> (unit_matches u c = true <-> c' = c)).
Proof.
  destruct u as [r|].
  2:{ left. exists "239"%char, ["191"%char; "189"%char].
      split; [vm_compute; reflexivity|]. split; [vm_compute; lia|]. reflexivity. }
  simpl unit_matches. simpl lower_unit.
  destruct (Z.ltb_spec r 0) as [Hneg | Hnn].
  { left. assert (E : unicode_lower r = r).
    { unfold unicode_lower. destruct (Z.leb_spec r 0x7F); [|lia].
      destruct (Z.leb_spec 65 r); [lia|]. reflexivity. }
    rewrite E. destruct (encode_high r) as (b & rest & Hb & Hh); [lia|].
    exists b, rest. split; [exact Hb|]. split; [exact Hh|].
    intros c _. apply not_true_iff_false. rewrite lower_matches_spec.
    pose proof (zb_bound c). lia. }
  destruct (Z.leb_spec r 127) as [Hs | Hl].
  { right. set (v := unicode_lower r).
    assert (Ev : v = if Z.leb 65 r && Z.leb r 90 then (r + 32)%Z else r).
    { unfold v, unicode_lower. destruct (Z.leb_spec r 0x7F); [reflexivity|lia]. }
    assert (Hv : (0 <= v <= 127 /\ (65 <= r <= 90 -> v = r + 32) /\
                  (~ (65 <= r <= 90) -> v = r))%Z).
    { rewrite Ev. destruct (Z.leb_spec 65 r); destruct (Z.leb_spec r 90); simpl; lia. }
    exists (ascii_of_nat (Z.to_nat v)). split; [apply encode_ascii; lia|].
    intros c Hc. unfold key_byte in Hc.
    apply andb_true_iff in Hc as [Hc1 Hc2]. apply Nat.ltb_lt in Hc1.
    assert (Hup : ~ (65 <= zb c <= 90)%Z).
    { unfold zb. intros Hu. destruct (Nat.leb_spec 65 (nat_of_ascii c));
      destruct (Nat.leb_spec (nat_of_ascii c) 90); simpl in Hc2; try discriminate; lia. }
    assert (Hzc : (zb c < 128)%Z) by (unfold zb; lia).
    rewrite lower_matches_spec. split.
    - intros Hm. apply zb_inj. unfold zb at 1. rewrite nat_ascii_embedding by lia.
      rewrite Z2Nat.id by lia. lia.
    - intros <-. unfold zb. rewrite nat_ascii_embedding by lia. rewrite Z2Nat.id by lia.
      lia. }
  destruct (Z.eq_dec r 0x130) as [->|Hn1].
  { right. exists "i"%char. split; [vm_compute; reflexivity|].
    intros c _. rewrite lower_matches_spec. split.
    - intros Hm. apply zb_inj. change (zb "i") with 105%Z.
      pose proof (zb_bound c). lia.
    - intros <-. right; right; left. split; reflexivity. }
  destruct (Z.eq_dec r 0x212A) as [->|Hn2].
  { right. exists "k"%char. split; [vm_compute; reflexivity|].
    intros c _. rewrite lower_matches_spec. split.
    - intros Hm. apply zb_inj. change (zb "k") with 107%Z.
      pose proof (zb_bound c). lia.
    - intros <-. right; right; right. split; reflexivity. }
  left. destruct (encode_high (unicode_lower r)) as (b & rest & Hb & Hh).
  { right. apply unicode_lower_high; lia. }
  exists b, rest. split; [exact Hb|]. split; [exact Hh|].
  intros c Hc. apply not_true_iff_false. rewrite lower_matches_spec.
  unfold zb. lia.
Qed.

Lemma concat_lower_matches (U : list utf8_unit) (t : list ascii) :
  forallb key_byte t = true ->
  (concat (map lower_unit U) = t <-> lower_matches_units U t = true).
Proof.
  revert t. induction U as [|u U IH]; intros t Ht.
  - destruct t; simpl; split; congruence.
  - change (concat (map lower_unit (u :: U)))
      with ((lower_unit u ++ concat (map lower_unit U))%list).
    destruct (lower_unit_cases u) as [(b & rest & E & Hb & Hm) | (c' & E & Hm)];
      rewrite E.
    + destruct t as [|c t].
      * rewrite lower_matches_units_nil. split; discriminate.
      * simpl in Ht. apply andb_true_iff in Ht as [Hc _].
        unfold key_byte in Hc. apply andb_true_iff in Hc as [Hc _].
        apply Nat.ltb_lt in Hc.
        rewrite lower_matches_units_cons, (Hm c Hc). simpl. split; [|discriminate].
        intros H. injection H as -> _. lia.
    + destruct t as [|c t].
      * rewrite lower_matches_units_nil. split; discriminate.
      * simpl in Ht. apply andb_true_iff in Ht as [Hc Ht].
        rewrite lower_matches_units_cons, andb_true_iff, <- (IH t Ht), (Hm c Hc).
        simpl. split; [intros H; injection H; auto | intros [-> ->]; reflexivity].
Qed.

Lemma units_ascii (bs : list ascii) :
  forallb (fun c => Nat.ltb (nat_of_ascii c) 128) bs = true ->
  utf8_units bs = map (fun c => Rune (zb c)) bs.
Proof.
  induction bs as [|c bs IH]; intros H; [reflexivity|].
  simpl in H. apply andb_true_iff in H as [Hc H].
  simpl. rewrite Hc. f_equal. apply IH, H.
Qed.

Lemma lower_unit_ascii (c : ascii) :
  Nat.ltb (nat_of_ascii c) 128 = true -> lower_unit (Rune (zb c)) = [ascii_lower c].
Proof.
  intros H. destruct c as [[] [] [] [] [] [] [] []];
    first [discriminate H | vm_compute; reflexivity].
Qed.

(** [strings.ToLower]'s ASCII fast path agrees with its general path. *)
Lemma to_lower_units (s : string) :
  to_lower s =
  string_of_list_ascii (concat (map lower_unit (utf8_units (list_ascii_of_string s)))).
Proof.
  unfold to_lower. destruct (forallb _ _) eqn:F; [|reflexivity].
  rewrite (units_ascii _ F), map_map. f_equal.
  induction (list_ascii_of_string s) as [|c bs IH]; [reflexivity|].
  simpl in F. apply andb_true_iff in F as [Hc F].
  cbn [map concat]. rewrite (lower_unit_ascii c Hc). simpl. f_equal. apply IH, F.
Qed.

Lemma to_lower_eqb_key (x k : string) :
  forallb key_byte (list_ascii_of_string k) = true ->
  String.eqb (to_lower x) k = lower_matches_ascii x k.
Proof.
  intros Hk. apply eq_true_iff_eq. rewrite String.eqb_eq, to_lower_units.
  unfold lower_matches_ascii. rewrite <- (concat_lower_matches _ _ Hk).
  split; intros H.
  - rewrite <- H, list_ascii_of_string_of_list_ascii. reflexivity.
  - rewrite H, string_of_list_ascii_of_string. reflexivity.
Qed.

Lemma lookup_eq (x : string) :
  forall T : list (list string * string),
  forallb (fun e => forallb (fun k => forallb key_byte (list_ascii_of_string k)) (fst e)) T = true ->
  find (fun entry => existsb (String.eqb (to_lower x)) (fst entry)) T =
  find (fun entry => existsb (lower_matches_ascii x) (fst entry)) T.
Proof.
  induction T as [|[ks t] T IH]; intros H; [reflexivity|].
  simpl in H. apply andb_true_iff in H as [Hk H]. simpl.
  replace (existsb (String.eqb (to_lower x)) ks) with (existsb (lower_matches_ascii x) ks).
  - destruct (existsb _ ks); [reflexivity | apply IH, H].
  - clear IH H. induction ks as [|k ks IHk]; [reflexivity|].
    simpl in Hk. apply andb_true_iff in Hk as [Hk1 Hk2]. simpl.
    rewrite (to_lower_eqb_key x k Hk1), IHk by exact Hk2. reflexivity.
Qed.

Lemma getMimeType_find (name : string) :
  getMimeType name =
  match find (fun entry => existsb (String.eqb (to_lower (FilePath.ext name))) (fst entry))
         spec_mime_table with
  | Some (_, t) => t
  | None => "application/octet-stream"
  end.
Proof.
  unfold getMimeType.
  generalize (to_lower (FilePath.ext name)) as x. intros x.
  cbv [find existsb fst spec_mime_table].
  repeat match goal with
         | |- context [String.eqb x ?k] => destruct (String.eqb x k); cbn [orb]
         end; reflexivity.
Qed.

End LowerFacts.

Module HeadFacts.

Import StrFacts.

(** The first byte of a string exists and is not the separator. *)
Definition head_ok (s : string) : bool :=
  match s with String c _ => negb (eqb_ascii c "/") | EmptyString => false end.

Lemma head_ok_app (a b : string) : head_ok a = true -> head_ok (a ++ b) = true.
Proof. destruct a; [discriminate | intros H; exact H]. Qed.

Lemma head_ok_map_bytes (f : ascii -> string) (s : string) :
  (forall c, eqb_ascii c "/" = false -> head_ok (f c) = true) ->
  head_ok s = true -> head_ok (map_bytes f s) = true.
Proof.
  intros Hf Hs. destruct s as [|c t]; [discriminate|].
  simpl in Hs. apply negb_true_iff in Hs.
  unfold map_bytes. simpl list_ascii_of_string. simpl map.
  destruct (map f (list_ascii_of_string t)) as [|d l];
    [exact (Hf c Hs) | cbn [String.concat]; apply head_ok_app, Hf, Hs].
Qed.

Lemma html_escape_byte_head (c : ascii) :
  eqb_ascii c "/" = false -> head_ok (html_escape_byte c) = true.
Proof.
  intros H. destruct c as [[] [] [] [] [] [] [] []];
    first [vm_compute; reflexivity | vm_compute in H; discriminate H].
Qed.

Lemma url_normalize_byte_head (c : ascii) :
  eqb_ascii c "/" = false -> head_ok (url_normalize_byte c) = true.
Proof.
  intros H. destruct c as [[] [] [] [] [] [] [] []];
    first [vm_compute; reflexivity | vm_compute in H; discriminate H].
Qed.

Lemma url_filter_head (s : string) : head_ok s = true -> head_ok (url_filter s) = true.
Proof.
  intros H. unfold url_filter. destruct (String.index 0 ":" s); [|exact H].
  cbv zeta. destruct (contains _ "/"); [exact H|].
  destruct (existsb _ _); [exact H | reflexivity].
Qed.

Lemma url_attr_head (s : string) : head_ok s = true -> head_ok (url_attr s) = true.
Proof.
  intros H. unfold url_attr, html_escape, url_normalize.
  apply head_ok_map_bytes; [exact html_escape_byte_head|].
  apply head_ok_map_bytes; [exact url_normalize_byte_head|].
  apply url_filter_head, H.
Qed.

Lemma join_head (y : string) (L : list string) :
  contains y "/" = false -> y <> "" -> head_ok (join_sep (y :: L)) = true.
Proof.
  intros Hc Hne. destruct y as [|c t]; [congruence|].
  rewrite contains_String in Hc. apply orb_false_iff in Hc as [Hp _].
  destruct (ascii_dec c "/") as [->|Hn]; [destruct t; simpl in Hp; discriminate Hp|].
  unfold join_sep. destruct L as [|z L]; simpl; unfold eqb_ascii;
    destruct (ascii_dec c "/"); try contradiction; reflexivity.
Qed.

Lemma has_prefix_head (s : string) : head_ok s = true -> has_prefix s "/" = false.
Proof.
  intros H. destruct s as [|c t]; [discriminate|].
  unfold has_prefix.
  change (String.prefix "/" (String c t))
    with (if ascii_dec "/" c then String.prefix "" t else false).
  destruct (ascii_dec "/" c) as [<-|Hn]; [|reflexivity].
  vm_compute in H. discriminate H.
Qed.

End HeadFacts.

(** * The claims *)

Import StrFacts PathFacts Containment LowerFacts HeadFacts.

(** C3: a request path that, after one leading separator is stripped,
    contains [".."] or still begins with a separator gets 403 Forbidden, in
    every environment (before any file-system access). *)
Theorem ServeHTTP_traversal_forbidden (env : Env) (servePath reqPath : string) :
  contains (trim_prefix reqPath "/") ".." = true \/
  has_prefix (trim_prefix reqPath "/") "/" = true ->
  ServeHTTP env servePath reqPath =
    http_Error "Forbidden: Directory traversal not allowed" StatusForbidden.
Proof.
  intros H. unfold ServeHTTP.
  assert (E : contains (trim_prefix reqPath "/") ".." ||
              has_prefix (trim_prefix reqPath "/") "/" = true)
    by (apply orb_true_iff; exact H).
  rewrite E. reflexivity.
Qed.

Lemma ServeHTTP_traversal_forbidden_witness :
  (contains (trim_prefix "/docs/../README.md" "/") ".." = true \/
   has_prefix (trim_prefix "/docs/../README.md" "/") "/" = true) /\
  ServeHTTP example_env "/srv/files" "/docs/../README.md" =
    http_Error "Forbidden: Directory traversal not allowed" StatusForbidden.
Proof.
  assert (H : contains (trim_prefix "/docs/../README.md" "/") ".." = true \/
              has_prefix (trim_prefix "/docs/../README.md" "/") "/" = true)
    by (left; vm_compute; reflexivity).
  split; [exact H | apply (ServeHTTP_traversal_forbidden example_env "/srv/files" _ H)].
Defined.

(** C1: for an absolute serve root, every request whose canonical
    candidate path is not boundary-contained in the canonical serve root
    is answered 403 Forbidden.  Such a request never passes the
    traversal check, so the answer is that check's 403, and the bare
    prefix comparison after it is never reached with an escaping path. *)
Theorem ServeHTTP_uncontained_forbidden (env : Env) (servePath reqPath cand : string) :
  FilePath.is_abs servePath = true ->
  FilePath.abs (getwd env) (FilePath.join servePath (trim_prefix reqPath "/")) = Some cand ->
  boundary_contained (FilePath.clean servePath) cand = false ->
  ServeHTTP env servePath reqPath =
    http_Error "Forbidden: Directory traversal not allowed" StatusForbidden.
Proof.
  intros Habs Hcand Hout. unfold ServeHTTP.
  destruct (contains (trim_prefix reqPath "/") ".." ||
            has_prefix (trim_prefix reqPath "/") "/") eqn:E.
  - reflexivity.
  - apply orb_false_iff in E as [Hdd _].
    destruct (candidate_contained (getwd env) servePath _ Habs Hdd) as (p & Hp & Hin).
    rewrite Hcand in Hp. injection Hp as <-. congruence.
Qed.

Lemma ServeHTTP_uncontained_forbidden_witness :
  FilePath.abs (getwd example_env)
    (FilePath.join "/srv/files" (trim_prefix "/../files-secret/x" "/"))
    = Some "/srv/files-secret/x" /\
  boundary_contained (FilePath.clean "/srv/files") "/srv/files-secret/x" = false /\
  ServeHTTP example_env "/srv/files" "/../files-secret/x" =
    http_Error "Forbidden: Directory traversal not allowed" StatusForbidden.
Proof.
  assert (H1 : FilePath.abs (getwd example_env)
                 (FilePath.join "/srv/files" (trim_prefix "/../files-secret/x" "/"))
               = Some "/srv/files-secret/x") by (vm_compute; reflexivity).
  assert (H2 : boundary_contained (FilePath.clean "/srv/files") "/srv/files-secret/x" = false)
    by (vm_compute; reflexivity).
  split; [exact H1|]. split; [exact H2|].
  apply (ServeHTTP_uncontained_forbidden example_env "/srv/files" "/../files-secret/x"
           "/srv/files-secret/x"); [reflexivity | exact H1 | exact H2].
Defined.

(** C10: for an absolute serve root, a request path that passes the
    traversal check has a candidate path boundary-contained in the serve
    root, so the containment check succeeds and the "Path outside serve
    directory" response is never produced. *)
Theorem ServeHTTP_outside_unreachable (env : Env) (servePath reqPath : string) :
  FilePath.is_abs servePath = true ->
  (contains (trim_prefix reqPath "/") ".." = false ->
   has_prefix (trim_prefix reqPath "/") "/" = false ->
   exists absPath,
     FilePath.abs (getwd env) (FilePath.join servePath (trim_prefix reqPath "/")) = Some absPath
     /\ boundary_contained (FilePath.clean servePath) absPath = true
     /\ within_serve_dir absPath
          (match FilePath.abs (getwd env) servePath with Some p => p | None => "" end) = true)
  /\ ServeHTTP env servePath reqPath <>
       http_Error "Forbidden: Path outside serve directory" StatusForbidden.
Proof.
  intros Habs.
  assert (Hserve : FilePath.abs (getwd env) servePath = Some (FilePath.clean servePath))
    by (unfold FilePath.abs; rewrite Habs; reflexivity).
  split.
  - intros Hdd _.
    destruct (candidate_contained (getwd env) servePath _ Habs Hdd) as (p & Hp & Hin).
    exists p. split; [exact Hp|]. split; [exact Hin|].
    rewrite Hserve. apply boundary_prefix, Hin.
  - unfold ServeHTTP.
    destruct (contains (trim_prefix reqPath "/") ".." ||
              has_prefix (trim_prefix reqPath "/") "/") eqn:E.
    + unfold http_Error. intros H. injection H. intros. discriminate.
    + apply orb_false_iff in E as [Hdd _].
      destruct (candidate_contained (getwd env) servePath _ Habs Hdd) as (p & Hp & Hin).
      rewrite Hp, Hserve. unfold within_serve_dir. rewrite (boundary_prefix _ _ Hin).
      simpl negb. cbv iota.
      destruct (stat env p) as [e|info].
      * destruct (is_not_exist e).
        -- unfold http_Error. intros H. injection H. intros. discriminate.
        -- discriminate.
      * destruct (fi_is_dir info).
        -- unfold serveDirectory.
           destruct (read_dir env p); [|destruct (generateDirectoryHTML _ _)];
             unfold http_Error; intros H; injection H; intros; discriminate.
        -- unfold serveFile.
           destruct (open env p) as [|f]; [|destruct (of_stat f)];
             unfold http_Error; intros H; injection H; intros; discriminate.
Qed.

Lemma ServeHTTP_outside_unreachable_witness :
  FilePath.is_abs "/srv/files" = true /\
  ServeHTTP example_env "/srv/files" "/docs" <>
    http_Error "Forbidden: Path outside serve directory" StatusForbidden.
Proof.
  split; [reflexivity|].
  apply (ServeHTTP_outside_unreachable example_env "/srv/files" "/docs"); reflexivity.
Defined.

(** C2 (code bug): [os.Stat] failing with anything but [ENOENT] leaves
    [info] nil and [info.IsDir()] panics.  GET /README.md/x, where
    README.md is a regular file, fails with [ENOTDIR]: no 500 is sent, the
    handler panics. *)
Theorem ServeHTTP_stat_error_panics :
  stat example_env "/srv/files/README.md/x" = inl ENOTDIR /\
  ServeHTTP example_env "/srv/files" "/README.md/x" =
    Panic "runtime error: invalid memory address or nil pointer dereference".
Proof. split; vm_compute; reflexivity. Qed.

(** C4 (code bug): the parent row links to a relative path that is not the
    ancestor.  The root listing links its subdirectory docs as /docs/, whose
    listing path is "docs/"; its parent row links to "docs/", which the
    browser resolves to /docs/docs/ instead of /.  Listing /docs/guides,
    the parent link "docs/" resolves to /docs/docs/ instead of /docs/. *)
Theorem parent_row_wrong_ancestor :
  hd_error (listing_rows {| Path := "docs/";
                            Files := sort_files (build_files "docs/" docs_entries) |})
    = Some (ParentRow "docs/") /\
  resolve_href "/docs/" "docs/" = "/docs/docs/" /\
  listing_rows {| Path := "docs/guides"; Files := [] |} = [ParentRow "docs/"] /\
  resolve_href "/docs/guides" "docs/" = "/docs/docs/".
Proof. repeat split; vm_compute; reflexivity. Qed.

(** C5 (counterexample): the extension is lower-cased with
    [strings.ToLower] and then compared exactly, which is not a
    case-insensitive comparison outside ASCII: photo.GİF (U+0130) is
    served as image/gif although .GİF and .gif differ under case
    folding, and logo.ſvg (U+017F) is served as application/octet-stream
    although .ſvg and .svg are equal under case folding. *)
Lemma getMimeType_not_case_fold :
  getMimeType ("photo.G" ++ str_of_bytes [196; 176] ++ "F") = "image/gif" /\
  spec_mime (FilePath.ext ("photo.G" ++ str_of_bytes [196; 176] ++ "F"))
    = "application/octet-stream" /\
  getMimeType ("logo." ++ str_of_bytes [197; 191] ++ "vg") = "application/octet-stream" /\
  spec_mime (FilePath.ext ("logo." ++ str_of_bytes [197; 191] ++ "vg")) = "image/svg+xml".
Proof. repeat split; vm_compute; reflexivity. Qed.

(** C5 (as amended): for every file name, the MIME type depends only on
    its extension: the table entry whose key equals the extension
    lower-cased rune by rune (ASCII letters in either case, U+0130 for
    'i', U+212A for 'k'), and application/octet-stream for any other
    extension (or none). *)
Theorem getMimeType_lower (name : string) :
  getMimeType name = spec_mime_lower (FilePath.ext name).
Proof.
  rewrite getMimeType_find. unfold spec_mime_lower.
  rewrite lookup_eq by (vm_compute; reflexivity). reflexivity.
Qed.

(** C6 (counterexample): the listing is not always exactly the directory's
    children: docs holds guide.txt and lost.tmp, but lost.tmp's [Info()]
    fails and it is left out. *)
Lemma listing_omits_unreadable_entry :
  ~ Permutation (map Name (sort_files (build_files "docs" docs_entries)))
                (map de_name docs_entries).
Proof.
  intros H. apply Permutation_length in H. vm_compute in H. discriminate.
Qed.

(** C6 (as amended): in a directory (entry names distinct) the listed
    entries are exactly the children whose [Info()] succeeds, in the order
    directories first, then by name; the entry rows render them in that
    order. *)
Theorem listing_sorted_children (urlPath : string) (entries : list dir_entry) :
  NoDup (map de_name entries) ->
  let files := sort_files (build_files urlPath entries) in
  StronglySorted listed_before files /\
  Permutation (map Name files) (map de_name (filter info_ok entries)) /\
  filter is_entry_row (listing_rows {| Path := urlPath; Files := files |})
    = map EntryRow files.
Proof.
  intros Hnd files. split; [|split].
  - apply SortFacts.sorted_listed_before, SortFacts.sort_files_sorted.
    rewrite SortFacts.build_files_names. apply SortFacts.readable_names_NoDup, Hnd.
  - rewrite <- (SortFacts.build_files_names urlPath entries). apply Permutation_map, SortFacts.sort_files_perm.
  - unfold listing_rows. cbn [Path Files].
    rewrite filter_app.
    destruct (negb (String.eqb urlPath "")); simpl;
      induction files as [|f fs IH]; simpl; try reflexivity; f_equal; exact IH.
Qed.

Lemma listing_sorted_children_witness :
  NoDup (map de_name root_entries) /\
  StronglySorted listed_before (sort_files (build_files "" root_entries)).
Proof.
  assert (H : NoDup (map de_name root_entries)).
  { vm_compute. constructor; [intros [H|[]]; discriminate | constructor; [intros []|constructor]]. }
  split; [exact H|]. apply (listing_sorted_children "" root_entries H).
Defined.

(** C8: every listed child's URL is root-relative: "/" followed by the
    listing path, "/" and the child's name (just the name for the root
    listing), with a trailing "/" exactly for directories. *)
Theorem listing_child_URL (urlPath : string) (entries : list dir_entry) (f : FileInfo) :
  In f (sort_files (build_files urlPath entries)) ->
  exists e, In e entries /\ Name f = de_name e /\ IsDir f = de_is_dir e /\
    URL f = "/" ++ (if String.eqb urlPath "" then de_name e
                    else urlPath ++ "/" ++ de_name e)
            ++ (if de_is_dir e then "/" else "").
Proof.
  intros Hin.
  apply (Permutation_in _ (SortFacts.sort_files_perm _)) in Hin.
  destruct (SortFacts.build_files_In _ _ _ Hin) as (e & info & He & _ & ->).
  exists e. repeat split; [exact He|]. cbn [URL]. unfold entry_URL.
  destruct (String.eqb urlPath ""); simpl negb; cbv iota; rewrite StrFacts.app_assoc;
    reflexivity.
Qed.

Lemma listing_child_URL_witness :
  In {| Name := "guide.txt"; IsDir := false; Size := 2048; ModTime := 1700000000;
        URL := "/docs/guide.txt" |} (sort_files (build_files "docs" docs_entries)) /\
  exists e, In e docs_entries /\ de_name e = "guide.txt" /\
    "/docs/guide.txt" = "/" ++ (if String.eqb "docs" "" then de_name e
                                else "docs" ++ "/" ++ de_name e)
                        ++ (if de_is_dir e then "/" else "").
Proof.
  assert (H : In {| Name := "guide.txt"; IsDir := false; Size := 2048;
                    ModTime := 1700000000; URL := "/docs/guide.txt" |}
                 (sort_files (build_files "docs" docs_entries)))
    by (vm_compute; left; reflexivity).
  split; [exact H|].
  destruct (listing_child_URL "docs" docs_entries _ H) as (e & He & En & _ & Eu).
  exists e. cbn [Name URL] in En, Eu. split; [exact He|]. split; [symmetry; exact En|].
  exact Eu.
Defined.

(** C7: [formatBytes] prints 0-1023 as the whole number of bytes, 1024 to
    1048575 as kibibytes with one decimal (the printed value within 0.05 of
    n/1024), and from 1048576 on as mebibytes with one decimal (within 0.05
    of float64(n)/2^20, where float64(n) = n below 2^53); directory rows show
    "-" for the size. *)
Theorem formatBytes_ranges (n : Z) (f : FileInfo) :
  ((0 <= n < 1024)%Z -> formatBytes n = dec n ++ " B") /\
  ((1024 <= n < 1048576)%Z ->
     exists q, formatBytes n = dec (q / 10) ++ "." ++ dec (q mod 10) ++ " KB" /\
               (Z.abs (2 * (q * 1024 - 10 * n)) <= 1024)%Z) /\
  ((1048576 <= n)%Z ->
     exists q, formatBytes n = dec (q / 10) ++ "." ++ dec (q mod 10) ++ " MB" /\
               (Z.abs (2 * (q * 1048576 - 10 * float64_of_int n)) <= 1048576)%Z) /\
  ((1048576 <= n < 2 ^ 53)%Z -> float64_of_int n = n) /\
  (IsDir f = true -> size_cell f = "-").
Proof.
  split; [|split; [|split; [|split]]].
  - intros Hn. unfold formatBytes. destruct (Z.ltb_spec n 1024); [reflexivity | lia].
  - intros Hn. unfold formatBytes.
    destruct (Z.ltb_spec n 1024); [lia|].
    destruct (Z.ltb_spec n (1024 * 1024)); [|lia].
    rewrite RoundFacts.float64_of_int_exact by lia.
    exists (round_half_even (10 * n) 1024). unfold fmt_1f. split.
    + rewrite !StrFacts.app_assoc. reflexivity.
    + apply RoundFacts.round_half_even_bound. lia.
  - intros Hn. unfold formatBytes.
    destruct (Z.ltb_spec n 1024); [lia|].
    destruct (Z.ltb_spec n (1024 * 1024)); [lia|].
    exists (round_half_even (10 * float64_of_int n) (1024 * 1024)). unfold fmt_1f. split.
    + rewrite !StrFacts.app_assoc. reflexivity.
    + apply RoundFacts.round_half_even_bound. lia.
  - intros Hn. apply RoundFacts.float64_of_int_exact. lia.
  - intros Hd. unfold size_cell. rewrite Hd. reflexivity.
Qed.

Lemma formatBytes_ranges_witness :
  (1024 <= 1280 < 1048576)%Z /\
  exists q, formatBytes 1280 = dec (q / 10) ++ "." ++ dec (q mod 10) ++ " KB" /\
            (Z.abs (2 * (q * 1024 - 10 * 1280)) <= 1024)%Z.
Proof.
  assert (H : (1024 <= 1280 < 1048576)%Z) by lia.
  split; [exact H|].
  destruct (formatBytes_ranges 1280
              {| Name := "a"; IsDir := true; Size := 0; ModTime := 0; URL := "/a/" |})
    as (_ & HKB & _).
  exact (HKB H).
Defined.

(** C9: the response is a function of the request path and of what the
    environment shows: two environments that answer every file-system call
    alike give the same outcome (status, headers and body, or the same
    panic). *)
Theorem ServeHTTP_deterministic (e1 e2 : Env) (servePath reqPath : string) :
  env_equiv e1 e2 ->
  ServeHTTP e1 servePath reqPath = ServeHTTP e2 servePath reqPath.
Proof.
  intros (Hwd & Hstat & Hopen & Hdir & Hoff). unfold ServeHTTP.
  rewrite Hwd.
  destruct (contains (trim_prefix reqPath "/") ".." ||
            has_prefix (trim_prefix reqPath "/") "/"); [reflexivity|].
  destruct (FilePath.abs (getwd e2) (FilePath.join servePath (trim_prefix reqPath "/")))
    as [absPath|]; [|reflexivity].
  destruct (negb (within_serve_dir absPath
              match FilePath.abs (getwd e2) servePath with Some p => p | None => "" end));
    [reflexivity|].
  rewrite Hstat. destruct (stat e2 absPath) as [e|info]; [reflexivity|].
  destruct (fi_is_dir info).
  - unfold serveDirectory. rewrite Hdir, Hoff. reflexivity.
  - unfold serveFile. rewrite Hopen. reflexivity.
Qed.

Lemma ServeHTTP_deterministic_witness :
  env_equiv example_env example_env_copy /\
  ServeHTTP example_env "/srv/files" "/docs/" = ServeHTTP example_env_copy "/srv/files" "/docs/".
Proof.
  assert (H : env_equiv example_env example_env_copy)
    by (repeat split; intros; reflexivity).
  split; [exact H | apply (ServeHTTP_deterministic example_env example_env_copy _ _ H)].
Defined.

(** * Further properties of the handler and of main *)

Module ServeFacts.
Import FilePath.

Lemma is_abs_app (a b : string) : is_abs a = true -> is_abs (a ++ b) = true.
Proof.
  unfold is_abs, has_prefix. intros H.
  destruct (prefix_exists _ _ H) as [post ->]. rewrite app_assoc. apply prefix_app.
Qed.

(** [Clean] is idempotent on rooted paths. *)
Lemma clean_clean (p : string) : is_abs p = true -> clean (clean p) = clean p.
Proof.
  intros H. rewrite (clean_rooted p H).
  apply clean_canonical, Forall_rev, clean_rooted_good.
Qed.

Lemma clean_is_abs (p : string) : is_abs p = true -> is_abs (clean p) = true.
Proof. intros H. rewrite (clean_rooted p H). apply is_abs_slash. Qed.

(** [filepath.Abs] returns a clean absolute path when [os.Getwd] does. *)
Lemma abs_clean_rooted (wd : option string) (p q : string) :
  (forall w, wd = Some w -> is_abs w = true) ->
  abs wd p = Some q -> is_abs q = true /\ clean q = q.
Proof.
  intros Hwd. unfold abs. destruct (is_abs p) eqn:Hp.
  - intros E; injection E as <-. split; [apply clean_is_abs, Hp | apply clean_clean, Hp].
  - destruct wd as [w|]; [|discriminate]. intros E; injection E as <-.
    specialize (Hwd w eq_refl).
    assert (Hw : String.eqb w "" = false)
      by (destruct w; [discriminate | reflexivity]).
    unfold join. rewrite Hw. simpl negb. cbv iota.
    assert (Ha : is_abs (w ++ "/" ++ p) = true) by (apply is_abs_app, Hwd).
    split; [apply clean_is_abs, Ha | apply clean_clean, Ha].
Qed.

(** Past the traversal check, with an absolute serve root, the containment
    check always succeeds and [ServeHTTP] continues with the stat of the
    candidate path. *)
Lemma serve_dispatch (env : Env) (servePath reqPath cand : string) :
  is_abs servePath = true ->
  contains (trim_prefix reqPath "/") ".." = false ->
  has_prefix (trim_prefix reqPath "/") "/" = false ->
  abs (getwd env) (join servePath (trim_prefix reqPath "/")) = Some cand ->
  ServeHTTP env servePath reqPath =
    match stat env cand with
    | inl e =>
        if is_not_exist e then http_Error "Not Found" StatusNotFound
        else Panic "runtime error: invalid memory address or nil pointer dereference"
    | inr info =>
        if fi_is_dir info then serveDirectory env cand (trim_prefix reqPath "/")
        else serveFile env cand
    end.
Proof.
  intros Habs Hdd Hsl Hc. unfold ServeHTTP. rewrite Hdd, Hsl. simpl orb. cbv iota.
  rewrite Hc.
  assert (Hserve : abs (getwd env) servePath = Some (clean servePath))
    by (unfold abs; rewrite Habs; reflexivity).
  rewrite Hserve.
  destruct (candidate_contained (getwd env) servePath _ Habs Hdd) as (p & Hp & Hin).
  rewrite Hc in Hp. injection Hp as <-.
  unfold within_serve_dir. rewrite (boundary_prefix _ _ Hin). reflexivity.
Qed.

(** The candidate of the root request is the cleaned serve root. *)
Lemma root_candidate (wd : option string) (servePath : string) :
  is_abs servePath = true ->
  abs wd (join servePath "") = Some (clean servePath).
Proof.
  intros Habs.
  destruct (candidate_form wd servePath "" Habs eq_refl) as [E1 E2].
  rewrite E1, E2. simpl. rewrite List.app_nil_r. reflexivity.
Qed.

Lemma filter_nonempty_good (L : list string) :
  Forall (fun e => good_elem e = true) L ->
  filter (fun e => negb (String.eqb e "")) L = L.
Proof.
  induction L as [|x L IH]; intros HF; [reflexivity|].
  inversion HF as [|? ? Hx HL]; subst. simpl.
  unfold good_elem in Hx. destruct (String.eqb x ""); [discriminate|].
  simpl. rewrite IH by exact HL. reflexivity.
Qed.

(** [filepath.Base] of a rooted path of kept elements is its last element. *)
Lemma base_rooted (L : list string) :
  Forall (fun e => good_elem e = true) L -> L <> [] ->
  base (String "/" (join_sep L)) = last L "".
Proof.
  intros HF Hne. unfold base. simpl String.eqb. cbv iota.
  change (String "/" (join_sep L)) with ("" ++ "/" ++ join_sep L).
  rewrite split_sep_app_slash, split_sep_join.
  - change (split_sep "" ++ L)%list with ("" :: L).
    simpl filter. simpl negb. cbv iota. rewrite filter_nonempty_good by exact HF.
    rewrite (app_removelast_last "" Hne) at 1. rewrite rev_app_distr. reflexivity.
  - eapply Forall_impl; [|exact HF]. intros e; apply good_no_slash.
  - exact Hne.
Qed.

Lemma last_app_ne (A F : list string) (d : string) :
  F <> [] -> last (A ++ F)%list d = last F d.
Proof.
  intros HF. induction A as [|x A IH]; [reflexivity|].
  simpl. rewrite IH. destruct (A ++ F)%list eqn:E; [|reflexivity].
  apply app_eq_nil in E as [_ ->]. congruence.
Qed.

End ServeFacts.

Import ServeFacts.

(** ServeHTTP: for an absolute serve root, once the traversal check
    passes, the response depends only on the stat of the candidate path:
    404 when it does not exist, a panic on any other stat error, the listing
    of a directory, the download of anything else. *)
Theorem ServeHTTP_stat_dispatch (env : Env) (servePath reqPath cand : string) :
  FilePath.is_abs servePath = true ->
  contains (trim_prefix reqPath "/") ".." = false ->
  has_prefix (trim_prefix reqPath "/") "/" = false ->
  FilePath.abs (getwd env) (FilePath.join servePath (trim_prefix reqPath "/")) = Some cand ->
  ServeHTTP env servePath reqPath =
    match stat env cand with
    | inl e =>
        if is_not_exist e then http_Error "Not Found" StatusNotFound
        else Panic "runtime error: invalid memory address or nil pointer dereference"
    | inr info =>
        if fi_is_dir info then serveDirectory env cand (trim_prefix reqPath "/")
        else serveFile env cand
    end.
Proof. apply serve_dispatch. Qed.

Lemma ServeHTTP_stat_dispatch_witness :
  FilePath.abs (getwd example_env)
    (FilePath.join "/srv/files" (trim_prefix "/docs/guide.txt" "/")) =
    Some "/srv/files/docs/guide.txt" /\
  ServeHTTP example_env "/srv/files" "/docs/guide.txt" =
    serveFile example_env "/srv/files/docs/guide.txt".
Proof.
  assert (H : FilePath.abs (getwd example_env)
                (FilePath.join "/srv/files" (trim_prefix "/docs/guide.txt" "/")) =
              Some "/srv/files/docs/guide.txt") by (vm_compute; reflexivity).
  split; [exact H|].
  rewrite (ServeHTTP_stat_dispatch example_env "/srv/files" "/docs/guide.txt"
             "/srv/files/docs/guide.txt" eq_refl eq_refl eq_refl H).
  vm_compute. reflexivity.
Defined.

(** ServeHTTP panics only after an [os.Stat] failure that is not
    "does not exist", on a request that passed both security checks;
    [serveFile] and [serveDirectory] never panic. *)
Theorem ServeHTTP_panic_only_on_stat_error (env : Env) (servePath reqPath msg : string) :
  (forall p u m, serveFile env p <> Panic m /\ serveDirectory env p u <> Panic m) /\
  (ServeHTTP env servePath reqPath = Panic msg ->
   contains (trim_prefix reqPath "/") ".." = false /\
   has_prefix (trim_prefix reqPath "/") "/" = false /\
   exists absPath e,
     FilePath.abs (getwd env) (FilePath.join servePath (trim_prefix reqPath "/")) = Some absPath
     /\ within_serve_dir absPath
          (match FilePath.abs (getwd env) servePath with Some p => p | None => "" end) = true
     /\ stat env absPath = inl e /\ is_not_exist e = false).
Proof.
  assert (Hsub : forall p u m, serveFile env p <> Panic m /\ serveDirectory env p u <> Panic m).
  { intros p u m. split.
    - unfold serveFile. destruct (open env p) as [|f]; [|destruct (of_stat f)];
        discriminate.
    - unfold serveDirectory.
      destruct (read_dir env p); [|destruct (generateDirectoryHTML _ _)]; discriminate. }
  split; [exact Hsub|].
  unfold ServeHTTP. cbv zeta.
  destruct (contains (trim_prefix reqPath "/") "..") eqn:E1; [discriminate|].
  destruct (has_prefix (trim_prefix reqPath "/") "/") eqn:E2; [discriminate|].
  cbn [orb].
  destruct (FilePath.abs (getwd env) (FilePath.join servePath (trim_prefix reqPath "/")))
    as [absPath|]; [|discriminate].
  destruct (within_serve_dir absPath _) eqn:Hw; cbn [negb]; [|discriminate].
  destruct (stat env absPath) as [e|info] eqn:Hs.
  - destruct (is_not_exist e) eqn:He; [discriminate|]. intros _.
    split; [reflexivity|]. split; [reflexivity|]. exists absPath, e. auto.
  - intros H. exfalso. destruct (fi_is_dir info).
    + exact (proj2 (Hsub absPath (trim_prefix reqPath "/") msg) H).
    + exact (proj1 (Hsub absPath "" msg) H).
Qed.

Lemma ServeHTTP_panic_only_on_stat_error_witness :
  ServeHTTP example_env "/srv/files" "/README.md/x" =
    Panic "runtime error: invalid memory address or nil pointer dereference" /\
  contains (trim_prefix "/README.md/x" "/") ".." = false /\
  has_prefix (trim_prefix "/README.md/x" "/") "/" = false /\
  exists absPath e,
    FilePath.abs (getwd example_env)
      (FilePath.join "/srv/files" (trim_prefix "/README.md/x" "/")) = Some absPath
    /\ within_serve_dir absPath
         (match FilePath.abs (getwd example_env) "/srv/files" with
          | Some p => p | None => "" end) = true
    /\ stat example_env absPath = inl e /\ is_not_exist e = false.
Proof.
  assert (H : ServeHTTP example_env "/srv/files" "/README.md/x" =
              Panic "runtime error: invalid memory address or nil pointer dereference")
    by (vm_compute; reflexivity).
  split; [exact H|].
  exact (proj2 (ServeHTTP_panic_only_on_stat_error example_env "/srv/files" "/README.md/x" _) H).
Defined.

(** ServeHTTP answers only with 200, 403, 404 or 500, and every answer
    other than 200 is an [http.Error]: a plain-text body with the nosniff
    header. *)
Theorem ServeHTTP_status_codes (env : Env) (servePath reqPath : string) (r : response) :
  ServeHTTP env servePath reqPath = Respond r ->
  In (status r) [StatusOK; StatusForbidden; StatusNotFound; StatusInternalServerError] /\
  (status r <> StatusOK ->
   headers r = [("Content-Type", "text/plain; charset=utf-8");
                ("X-Content-Type-Options", "nosniff")]).
Proof.
  assert (HE : forall msg code, In code [StatusForbidden; StatusNotFound; StatusInternalServerError] ->
               http_Error msg code = Respond r ->
               In (status r) [StatusOK; StatusForbidden; StatusNotFound; StatusInternalServerError] /\
               (status r <> StatusOK ->
                headers r = [("Content-Type", "text/plain; charset=utf-8");
                             ("X-Content-Type-Options", "nosniff")])).
  { intros msg code Hc H. injection H as <-. split; [right; exact Hc | reflexivity]. }
  assert (HOK : forall h b, Respond {| status := StatusOK; headers := h; body := b |} = Respond r ->
               In (status r) [StatusOK; StatusForbidden; StatusNotFound; StatusInternalServerError] /\
               (status r <> StatusOK ->
                headers r = [("Content-Type", "text/plain; charset=utf-8");
                             ("X-Content-Type-Options", "nosniff")])).
  { intros h b H. injection H as <-. split; [left; reflexivity | simpl; congruence]. }
  unfold ServeHTTP.
  destruct (contains (trim_prefix reqPath "/") ".." ||
            has_prefix (trim_prefix reqPath "/") "/"); [apply HE; simpl; auto|].
  destruct (FilePath.abs (getwd env) (FilePath.join servePath (trim_prefix reqPath "/")))
    as [absPath|]; [|apply HE; simpl; auto].
  destruct (negb _); [apply HE; simpl; auto|].
  destruct (stat env absPath) as [e|info].
  - destruct (is_not_exist e); [apply HE; simpl; auto | discriminate].
  - destruct (fi_is_dir info).
    + unfold serveDirectory.
      destruct (read_dir env absPath); [apply HE; simpl; auto|].
      destruct (generateDirectoryHTML _ _); [apply HE; simpl; auto | apply HOK].
    + unfold serveFile. destruct (open env absPath) as [|f]; [apply HE; simpl; auto|].
      destruct (of_stat f); [apply HE; simpl; auto | apply HOK].
Qed.

Lemma ServeHTTP_status_codes_witness :
  ServeHTTP example_env "/srv/files" "/missing" =
    Respond {| status := StatusNotFound;
               headers := [("Content-Type", "text/plain; charset=utf-8");
                           ("X-Content-Type-Options", "nosniff")];
               body := "Not Found" ++ nl |} /\
  In StatusNotFound [StatusOK; StatusForbidden; StatusNotFound; StatusInternalServerError].
Proof.
  assert (H : ServeHTTP example_env "/srv/files" "/missing" =
    Respond {| status := StatusNotFound;
               headers := [("Content-Type", "text/plain; charset=utf-8");
                           ("X-Content-Type-Options", "nosniff")];
               body := "Not Found" ++ nl |}) by (vm_compute; reflexivity).
  split; [exact H|].
  exact (proj1 (ServeHTTP_status_codes _ _ _ _ H)).
Defined.

(** ServeHTTP and serveFile: a request for an existing, openable
    non-directory under an absolute root is answered 200 with the file's
    bytes; the download name in Content-Disposition, and the name
    getMimeType sees, are the last kept element of the request path, and
    Content-Length is the size [file.Stat] reports. *)
Theorem ServeHTTP_file_download (env : Env) (servePath reqPath cand : string)
    (info info' : os_file_info) (file : open_file) :
  FilePath.is_abs servePath = true ->
  contains (trim_prefix reqPath "/") ".." = false ->
  has_prefix (trim_prefix reqPath "/") "/" = false ->
  filter kept_elem (split_sep (trim_prefix reqPath "/")) <> [] ->
  FilePath.abs (getwd env) (FilePath.join servePath (trim_prefix reqPath "/")) = Some cand ->
  stat env cand = inr info -> fi_is_dir info = false ->
  open env cand = inr file -> of_stat file = inr info' ->
  let name := last (filter kept_elem (split_sep (trim_prefix reqPath "/"))) "" in
  ServeHTTP env servePath reqPath =
    Respond {| status := StatusOK;
               headers := [("Content-Type", getMimeType name);
                           ("Content-Length", dec (fi_size info'));
                           ("Content-Disposition",
                            "attachment; filename=" ++ dq ++ name ++ dq)];
               body := of_data file |}.
Proof.
  intros Habs Hdd Hsl Hne Hc Hs Hd Ho Hos name.
  rewrite (serve_dispatch env servePath reqPath cand Habs Hdd Hsl Hc), Hs, Hd.
  unfold serveFile. rewrite Ho, Hos.
  destruct (candidate_form (getwd env) servePath _ Habs Hdd) as [E1 _].
  rewrite Hc in E1. injection E1 as ->.
  rewrite base_rooted.
  - rewrite last_app_ne by exact Hne. reflexivity.
  - apply Forall_app. split; [apply Forall_rev, clean_rooted_good | apply kept_good, Hdd].
  - intros E. apply app_eq_nil in E as [_ E]. contradiction.
Qed.

Lemma ServeHTTP_file_download_witness :
  ServeHTTP example_env "/srv/files" "/README.md/" =
    Respond {| status := StatusOK;
               headers := [("Content-Type", getMimeType "README.md");
                           ("Content-Length", dec 5);
                           ("Content-Disposition",
                            "attachment; filename=" ++ dq ++ "README.md" ++ dq)];
               body := "hello" |}.
Proof.
  exact (ServeHTTP_file_download example_env "/srv/files" "/README.md/" "/srv/files/README.md"
           (mk_info false 5 1700000000) (mk_info false 5 1700000000)
           {| of_stat := inr (mk_info false 5 1700000000); of_data := "hello" |}
           eq_refl eq_refl eq_refl ltac:(vm_compute; discriminate)
           ltac:(vm_compute; reflexivity) ltac:(vm_compute; reflexivity) eq_refl
           ltac:(vm_compute; reflexivity) eq_refl).
Defined.

(** ServeHTTP: with an absolute serve root, GET / and a request with an
    empty path both stat the cleaned serve root itself and, when it is a
    directory, list it with the empty listing path (no parent row). *)
Theorem ServeHTTP_root_listing (env : Env) (servePath : string) (info : os_file_info) :
  FilePath.is_abs servePath = true ->
  stat env (FilePath.clean servePath) = inr info -> fi_is_dir info = true ->
  ServeHTTP env servePath "/" = serveDirectory env (FilePath.clean servePath) "" /\
  ServeHTTP env servePath "" = serveDirectory env (FilePath.clean servePath) "".
Proof.
  intros Habs Hs Hd.
  split.
  - rewrite (serve_dispatch env servePath "/" (FilePath.clean servePath) Habs eq_refl eq_refl
               (root_candidate _ _ Habs)), Hs, Hd. reflexivity.
  - rewrite (serve_dispatch env servePath "" (FilePath.clean servePath) Habs eq_refl eq_refl
               (root_candidate _ _ Habs)), Hs, Hd. reflexivity.
Qed.

Lemma ServeHTTP_root_listing_witness :
  stat example_env (FilePath.clean "/srv/files/") = inr (mk_info true 4096 1700000000) /\
  ServeHTTP example_env "/srv/files/" "/" = serveDirectory example_env "/srv/files" "".
Proof.
  assert (H : stat example_env (FilePath.clean "/srv/files/") = inr (mk_info true 4096 1700000000))
    by (vm_compute; reflexivity).
  split; [exact H|].
  exact (proj1 (ServeHTTP_root_listing example_env "/srv/files/" _ eq_refl H eq_refl)).
Defined.

(** ServeHTTP: two requests that pass the traversal check and have the
    same kept path elements (they differ only in repeated separators, "."
    elements or a trailing separator) reach the same candidate; unless that
    candidate is a directory they get the same response. *)
Theorem ServeHTTP_same_elements_same_response (env : Env) (servePath r1 r2 cand : string) :
  FilePath.is_abs servePath = true ->
  contains (trim_prefix r1 "/") ".." = false -> has_prefix (trim_prefix r1 "/") "/" = false ->
  contains (trim_prefix r2 "/") ".." = false -> has_prefix (trim_prefix r2 "/") "/" = false ->
  filter kept_elem (split_sep (trim_prefix r1 "/")) =
    filter kept_elem (split_sep (trim_prefix r2 "/")) ->
  FilePath.abs (getwd env) (FilePath.join servePath (trim_prefix r1 "/")) = Some cand ->
  (forall info, stat env cand = inr info -> fi_is_dir info = false) ->
  FilePath.abs (getwd env) (FilePath.join servePath (trim_prefix r2 "/")) = Some cand /\
  ServeHTTP env servePath r1 = ServeHTTP env servePath r2.
Proof.
  intros Habs Hd1 Hs1 Hd2 Hs2 Hk Hc Hnd.
  assert (Hc2 : FilePath.abs (getwd env) (FilePath.join servePath (trim_prefix r2 "/")) = Some cand).
  { destruct (candidate_form (getwd env) servePath _ Habs Hd1) as [E1 _].
    destruct (candidate_form (getwd env) servePath _ Habs Hd2) as [E2 _].
    rewrite E2, <- Hk, <- E1. exact Hc. }
  split; [exact Hc2|].
  rewrite (serve_dispatch env servePath r1 cand Habs Hd1 Hs1 Hc),
          (serve_dispatch env servePath r2 cand Habs Hd2 Hs2 Hc2).
  destruct (stat env cand) as [e|info] eqn:Hs; [reflexivity|].
  rewrite (Hnd info eq_refl). reflexivity.
Qed.

Lemma ServeHTTP_same_elements_same_response_witness :
  ServeHTTP example_env "/srv/files" "/README.md" =
    ServeHTTP example_env "/srv/files" "/.//README.md/".
Proof.
  refine (proj2 (ServeHTTP_same_elements_same_response example_env "/srv/files"
                   "/README.md" "/.//README.md/" "/srv/files/README.md"
                   eq_refl eq_refl eq_refl eq_refl eq_refl ltac:(vm_compute; reflexivity)
                   ltac:(vm_compute; reflexivity) _)).
  intros info H. vm_compute in H. injection H as <-. reflexivity.
Defined.

(** main: whenever main goes on to serve (and [os.Getwd] yields absolute
    paths, as it does), the handler's root is clean and absolute, it listens
    on the [--port] value, and, whatever the state of the file system and
    of the process when a request arrives ([env']), no request is answered
    "Forbidden: Path outside serve directory". *)
Theorem main_serve_root_absolute (env : Env) (wd_err : string) (port : Z) (folder : string)
    (servePath : string) (port' : Z) (out : list string) :
  (forall w, getwd env = Some w -> FilePath.is_abs w = true) ->
  main_start env wd_err port folder = Serve servePath port' out ->
  FilePath.is_abs servePath = true /\ FilePath.clean servePath = servePath /\ port' = port /\
  forall (env' : Env) (reqPath : string),
    ServeHTTP env' servePath reqPath <>
      http_Error "Forbidden: Path outside serve directory" StatusForbidden.
Proof.
  intros Hwd Hm.
  assert (Habs : FilePath.abs (getwd env) folder = Some servePath /\ port' = port).
  { unfold main_start in Hm. destruct (String.eqb folder ""); [discriminate|].
    destruct (FilePath.abs (getwd env) folder) as [sp|]; [|discriminate].
    destruct (stat env sp) as [e|]; [destruct (is_not_exist e)|];
      try discriminate; injection Hm as <- <- _; auto. }
  destruct Habs as [Habs ->].
  destruct (abs_clean_rooted _ _ _ Hwd Habs) as [Ha Hc].
  split; [exact Ha|]. split; [exact Hc|]. split; [reflexivity|].
  intros env' reqPath.
  destruct (contains (trim_prefix reqPath "/") ".." ||
            has_prefix (trim_prefix reqPath "/") "/") eqn:E.
  - unfold ServeHTTP. rewrite E. unfold http_Error. intros H. injection H. intros. discriminate.
  - apply orb_false_iff in E as [Hdd Hsl].
    destruct (candidate_form (getwd env') servePath _ Ha Hdd) as [E1 _].
    rewrite (serve_dispatch env' servePath reqPath _ Ha Hdd Hsl E1).
    destruct (stat env' _) as [e|info].
    + destruct (is_not_exist e); [|discriminate].
      unfold http_Error. intros H. injection H. intros. discriminate.
    + destruct (fi_is_dir info).
      * unfold serveDirectory.
        destruct (read_dir env' _); [|destruct (generateDirectoryHTML _ _)];
          unfold http_Error; intros H; injection H; intros; discriminate.
      * unfold serveFile.
        destruct (open env' _) as [|f]; [|destruct (of_stat f)];
          unfold http_Error; intros H; injection H; intros; discriminate.
Qed.

Lemma main_serve_root_absolute_witness :
  main_start example_env "" 8000 "/srv/files/" =
    Serve "/srv/files" 8000
      ["Serving files from: /srv/files" ++ nl;
       "Server running on: http://localhost:8000" ++ nl;
       "Press Ctrl+C to stop the server" ++ nl] /\
  FilePath.is_abs "/srv/files" = true.
Proof.
  assert (Hwd : forall w, getwd example_env = Some w -> FilePath.is_abs w = true)
    by (intros w H; injection H as <-; reflexivity).
  assert (H : main_start example_env "" 8000 "/srv/files/" =
    Serve "/srv/files" 8000
      ["Serving files from: /srv/files" ++ nl;
       "Server running on: http://localhost:8000" ++ nl;
       "Press Ctrl+C to stop the server" ++ nl]) by (vm_compute; reflexivity).
  split; [exact H | exact (proj1 (main_serve_root_absolute _ _ _ _ _ _ _ Hwd H))].
Defined.

(** main checks only that the folder exists: a regular file given as
    [--folder] is accepted, and GET / then downloads that file. *)
Theorem main_accepts_regular_file (env : Env) (wd_err : string) (port : Z)
    (folder servePath : string) (info : os_file_info) :
  (forall w, getwd env = Some w -> FilePath.is_abs w = true) ->
  folder <> "" ->
  FilePath.abs (getwd env) folder = Some servePath ->
  stat env servePath = inr info -> fi_is_dir info = false ->
  main_start env wd_err port folder =
    Serve servePath port
      ["Serving files from: " ++ servePath ++ nl;
       "Server running on: http://localhost:" ++ dec port ++ nl;
       "Press Ctrl+C to stop the server" ++ nl] /\
  ServeHTTP env servePath "/" = serveFile env servePath.
Proof.
  intros Hwd Hne Habs Hs Hd.
  destruct (abs_clean_rooted _ _ _ Hwd Habs) as [Ha Hc].
  split.
  - unfold main_start. destruct (String.eqb_spec folder ""); [contradiction|].
    rewrite Habs, Hs. reflexivity.
  - pose proof (root_candidate (getwd env) servePath Ha) as Hr. rewrite Hc in Hr.
    rewrite (serve_dispatch env servePath "/" servePath Ha eq_refl eq_refl Hr), Hs, Hd.
    reflexivity.
Qed.

Lemma main_accepts_regular_file_witness :
  main_start example_env "" 8000 "/srv/files/README.md" =
    Serve "/srv/files/README.md" 8000
      ["Serving files from: " ++ "/srv/files/README.md" ++ nl;
       "Server running on: http://localhost:" ++ dec 8000 ++ nl;
       "Press Ctrl+C to stop the server" ++ nl] /\
  ServeHTTP example_env "/srv/files/README.md" "/" =
    serveFile example_env "/srv/files/README.md".
Proof.
  apply (main_accepts_regular_file example_env "" 8000 "/srv/files/README.md"
           "/srv/files/README.md" (mk_info false 5 1700000000)).
  - intros w H; injection H as <-; reflexivity.
  - discriminate.
  - vm_compute; reflexivity.
  - vm_compute; reflexivity.
  - reflexivity.
Defined.

(** main, after a successful [flag.Parse] and before
    [ListenAndServe]: its own exits ([os.Exit]) all have status 1 and
    happen only when [--folder] is empty, [filepath.Abs] fails, or
    [os.Stat] reports that the path does not exist. *)
Theorem main_exit_cases (env : Env) (wd_err : string) (port : Z) (folder : string)
    (code : Z) (out : list string) :
  main_start env wd_err port folder = Exit code out ->
  code = 1%Z /\
  (folder = "" \/ FilePath.abs (getwd env) folder = None \/
   exists servePath, FilePath.abs (getwd env) folder = Some servePath /\
                     stat env servePath = inl ENOENT).
Proof.
  unfold main_start. destruct (String.eqb_spec folder "") as [->|Hne].
  - intros H. injection H as <- _. auto.
  - destruct (FilePath.abs (getwd env) folder) as [sp|] eqn:Ha.
    + destruct (stat env sp) as [e|] eqn:Hs; [|discriminate].
      destruct e; try discriminate. intros H. injection H as <- _.
      split; [reflexivity|]. right; right. exists sp. auto.
    + intros H. injection H as <- _. auto.
Qed.

Lemma main_exit_cases_witness :
  main_start example_env "" 8000 "/srv/nothing" =
    Exit 1 ["Error: Folder '/srv/nothing' does not exist" ++ nl] /\
  exists servePath, FilePath.abs (getwd example_env) "/srv/nothing" = Some servePath /\
                    stat example_env servePath = inl ENOENT.
Proof.
  assert (H : main_start example_env "" 8000 "/srv/nothing" =
              Exit 1 ["Error: Folder '/srv/nothing' does not exist" ++ nl])
    by (vm_compute; reflexivity).
  split; [exact H|].
  destruct (main_exit_cases _ _ _ _ _ _ H) as [_ [Hf|[Hf|Hf]]];
    [discriminate | discriminate | exact Hf].
Defined.

Module ByteFacts.

Lemma los_app (a b : string) :
  list_ascii_of_string (a ++ b) = (list_ascii_of_string a ++ list_ascii_of_string b)%list.
Proof. induction a as [|c a IH]; simpl; [reflexivity | rewrite IH; reflexivity]. Qed.

Lemma concat_bytes_In (f : ascii -> string) (l : list ascii) (c : ascii) :
  In c (list_ascii_of_string (String.concat "" (map f l))) ->
  exists b, In b l /\ In c (list_ascii_of_string (f b)).
Proof.
  induction l as [|x l IH]; intros H; [contradiction|].
  destruct l as [|y l].
  - exists x. split; [left; reflexivity | exact H].
  - change (String.concat "" (map f (x :: y :: l)))
      with (f x ++ "" ++ String.concat "" (map f (y :: l))) in H.
    rewrite los_app in H. apply in_app_or in H as [H|H].
    + exists x. split; [left; reflexivity | exact H].
    + destruct (IH H) as (b & Hb & Hc). exists b. split; [right; exact Hb | exact Hc].
Qed.

Lemma html_escape_byte_all :
  forallb (fun n => forallb (fun c => negb (markup_byte c))
                      (list_ascii_of_string (html_escape_byte (ascii_of_nat n))))
          (seq 0 256) = true.
Proof. vm_compute. reflexivity. Qed.

Lemma html_escape_byte_safe (b c : ascii) :
  In c (list_ascii_of_string (html_escape_byte b)) -> markup_byte c = false.
Proof.
  intros H.
  pose proof html_escape_byte_all as A. rewrite forallb_forall in A.
  assert (Hb : In (nat_of_ascii b) (seq 0 256)).
  { apply in_seq. pose proof (nat_ascii_bounded b). lia. }
  specialize (A _ Hb). rewrite ascii_nat_embedding in A.
  rewrite forallb_forall in A. specialize (A c H). destruct (markup_byte c); [discriminate | reflexivity].
Qed.

Lemma string_of_los (s : string) : string_of_list_ascii (list_ascii_of_string s) = s.
Proof. induction s as [|c s IH]; simpl; [reflexivity | rewrite IH; reflexivity]. Qed.

Lemma sol_app (a b : list ascii) :
  string_of_list_ascii (a ++ b) = string_of_list_ascii a ++ string_of_list_ascii b.
Proof. induction a as [|c a IH]; simpl; [reflexivity | rewrite IH; reflexivity]. Qed.

Lemma no_dot_bytes (t : string) : contains t "." = false -> ~ In dot (list_ascii_of_string t).
Proof.
  induction t as [|c t IH]; intros H Hin; [contradiction|].
  rewrite contains_String in H. apply orb_false_iff in H as [H1 H2].
  destruct Hin as [E|Hin]; [|exact (IH H2 Hin)].
  subst c. change (String dot t) with ("." ++ t) in H1. rewrite prefix_app in H1. discriminate.
Qed.

(** The backward scan of [filepath.Ext], for any function with its
    equations. *)
Section Scan.
Variable go : list ascii -> string -> string.
Hypothesis go_nil : forall acc, go [] acc = "".
Hypothesis go_cons : forall c rs acc,
  go (c :: rs) acc = if eqb_ascii c dot then String c acc else go rs (String c acc).

Lemma scan_no_dot (l : list ascii) (acc : string) : ~ In dot l -> go l acc = "".
Proof.
  revert acc; induction l as [|c l IH]; intros acc H; [apply go_nil|].
  rewrite go_cons. unfold eqb_ascii. destruct (ascii_dec c dot) as [->|].
  - exfalso; apply H; left; reflexivity.
  - apply IH. intros Hin; apply H; right; exact Hin.
Qed.

Lemma scan_dot (l rest : list ascii) (acc : string) :
  ~ In dot l ->
  go (l ++ dot :: rest)%list acc = String dot (string_of_list_ascii (rev l) ++ acc).
Proof.
  revert acc; induction l as [|c l IH]; intros acc H.
  - simpl. rewrite go_cons. reflexivity.
  - simpl app. rewrite go_cons. unfold eqb_ascii. destruct (ascii_dec c dot) as [->|].
    + exfalso; apply H; left; reflexivity.
    + rewrite IH by (intros Hin; apply H; right; exact Hin).
      simpl rev. rewrite sol_app. simpl. rewrite app_assoc. reflexivity.
Qed.

End Scan.

Lemma ext_scan (p : string) :
  exists go : list ascii -> string -> string,
    (forall acc, go [] acc = "") /\
    (forall c rs acc,
       go (c :: rs) acc = if eqb_ascii c dot then String c acc else go rs (String c acc)) /\
    FilePath.ext p = go (rev (list_ascii_of_string (last (split_sep p) ""))) "".
Proof.
  eexists. split; [|split]; [| |reflexivity]; reflexivity.
Qed.

(** The last piece of [strings.Split] grows by a suffix without
    separators. *)
Lemma split_sep_app_noslash (p s : string) :
  contains s "/" = false ->
  exists pre lst, split_sep p = (pre ++ [lst])%list /\
                  split_sep (p ++ s) = (pre ++ [(lst ++ s)%string])%list.
Proof.
  intros Hs. induction p as [|c p IH].
  - exists [], "". split; [reflexivity|]. apply split_sep_single, Hs.
  - destruct IH as (pre & lst & E1 & E2).
    change (String c p ++ s) with (String c (p ++ s)).
    rewrite !split_sep_String, E1, E2.
    destruct (eqb_ascii c slash).
    + exists ("" :: pre), lst. split; reflexivity.
    + destruct pre as [|h pre].
      * exists [], (String c lst). split; reflexivity.
      * exists (String c h :: pre), lst. split; reflexivity.
Qed.

End ByteFacts.

Import ByteFacts.

(** generateDirectoryHTML: a file name, and a child link, as the template
    writes them contain no raw [<], [>], double or single quote: a name
    cannot close the [href] attribute or open markup. *)
Theorem html_escape_no_markup (s : string) :
  forallb (fun c => negb (markup_byte c)) (list_ascii_of_string (html_escape s)) = true /\
  forallb (fun c => negb (markup_byte c)) (list_ascii_of_string (url_attr s)) = true.
Proof.
  assert (G : forall t,
             forallb (fun c => negb (markup_byte c)) (list_ascii_of_string (html_escape t)) = true).
  { intros t. apply forallb_forall. intros c H. unfold html_escape, map_bytes in H.
    destruct (concat_bytes_In _ _ _ H) as (b & _ & Hb).
    rewrite (html_escape_byte_safe b c Hb). reflexivity. }
  split; [apply G | apply G].
Qed.

(** getMimeType: only the final extension of a name counts ("notes.txt.html"
    is text/html, "archive.tar.gz" is octet-stream); [filepath.Ext] of a
    name ending in "." followed by a suffix without dot or separator is that
    dotted suffix. *)
Theorem getMimeType_final_extension (p t : string) :
  contains t "/" = false -> contains t "." = false ->
  FilePath.ext (p ++ "." ++ t) = "." ++ t /\
  getMimeType (p ++ "." ++ t) = getMimeType ("." ++ t).
Proof.
  intros Hs Hd.
  assert (E : forall q, FilePath.ext (q ++ "." ++ t) = "." ++ t).
  { intros q.
    destruct (ext_scan (q ++ "." ++ t)) as (go & Hn & Hc & ->).
    assert (Hs' : contains ("." ++ t) "/" = false) by exact Hs.
    destruct (split_sep_app_noslash q _ Hs') as (pre & lst & _ & E2).
    rewrite E2, last_last, los_app, los_app. simpl list_ascii_of_string at 2.
    rewrite rev_app_distr.
    replace (rev (["."%char] ++ list_ascii_of_string t) ++ rev (list_ascii_of_string lst))%list
      with (rev (list_ascii_of_string t) ++ dot :: rev (list_ascii_of_string lst))%list
      by (rewrite rev_app_distr, <- List.app_assoc; reflexivity).
    rewrite (scan_dot go Hc).
    - rewrite rev_involutive, string_of_los, app_empty_r. reflexivity.
    - intros Hin. apply in_rev in Hin. exact (no_dot_bytes t Hd Hin). }
  split; [apply E|].
  pose proof (E "") as E0. change ("" ++ "." ++ t) with ("." ++ t) in E0.
  unfold getMimeType. rewrite E, E0. reflexivity.
Qed.

Lemma getMimeType_final_extension_witness :
  getMimeType ("notes.txt" ++ "." ++ "html") = getMimeType ("." ++ "html").
Proof.
  exact (proj2 (getMimeType_final_extension "notes.txt" "html" eq_refl eq_refl)).
Defined.

(** getMimeType: a name whose last element has no dot ("Makefile",
    "docs/README") is served as application/octet-stream. *)
Theorem getMimeType_no_extension (p : string) :
  contains (last (split_sep p) "") "." = false ->
  getMimeType p = "application/octet-stream".
Proof.
  intros H.
  destruct (ext_scan p) as (go & Hn & Hc & Ee).
  assert (E : FilePath.ext p = "").
  { rewrite Ee. apply (scan_no_dot go Hn Hc).
    intros Hin. apply in_rev in Hin. exact (no_dot_bytes _ H Hin). }
  unfold getMimeType. rewrite E. reflexivity.
Qed.

Lemma getMimeType_no_extension_witness :
  getMimeType "docs.d/Makefile" = "application/octet-stream".
Proof.
  apply getMimeType_no_extension. vm_compute. reflexivity.
Defined.

(** dirname and the parent row: for a listing path of non-empty,
    separator-free elements, [dirname] drops the last element, and the
    parent [href] is "/" for a single element and otherwise that dirname
    (URL-escaped) followed by "/", which then never starts with "/". *)
Theorem dirname_parent_href (L : list string) (x : string) :
  Forall (fun e => contains e "/" = false /\ e <> "") (L ++ [x])%list ->
  dirname (join_sep (L ++ [x])%list) = join_sep L /\
  parent_href (join_sep (L ++ [x])%list) =
    match L with [] => "/" | _ :: _ => url_attr (join_sep L) ++ "/" end /\
  (L <> [] -> has_prefix (parent_href (join_sep (L ++ [x])%list)) "/" = false).
Proof.
  intros HF.
  assert (HF' : Forall (fun e => contains e "/" = false) (L ++ [x])%list)
    by (eapply Forall_impl; [|exact HF]; intros e [He _]; exact He).
  assert (Hs : split_sep (join_sep (L ++ [x])%list) = (L ++ [x])%list)
    by (apply split_sep_join; [exact HF' | intros E; apply app_eq_nil in E as [_ E]; discriminate]).
  assert (Hd : dirname (join_sep (L ++ [x])%list) = join_sep L).
  { unfold dirname. rewrite Hs, length_app. simpl length.
    destruct L as [|y L]; [reflexivity|].
    match goal with |- context [Nat.leb ?a 1] =>
      replace (Nat.leb a 1) with false by (symmetry; apply Nat.leb_gt; simpl; lia) end.
    rewrite removelast_last. reflexivity. }
  assert (Hp : parent_href (join_sep (L ++ [x])%list) =
               match L with [] => "/" | _ :: _ => url_attr (join_sep L) ++ "/" end).
  { unfold parent_href. rewrite Hs, length_app. simpl length.
    destruct L as [|y L]; [reflexivity|].
    match goal with |- context [Nat.eqb ?a 1] =>
      replace (Nat.eqb a 1) with false by (symmetry; apply Nat.eqb_neq; simpl; lia) end.
    rewrite Hd. reflexivity. }
  split; [exact Hd|]. split; [exact Hp|].
  intros Hne. rewrite Hp. destruct L as [|y L]; [contradiction|].
  inversion HF as [|? ? [Hy1 Hy2] _]; subst.
  apply has_prefix_head, head_ok_app, url_attr_head, join_head; assumption.
Qed.

Lemma dirname_parent_href_witness :
  dirname (join_sep ["docs"; "guides"; "intro.txt"]) = "docs/guides" /\
  parent_href (join_sep ["docs"; "guides"; "intro.txt"]) = url_attr "docs/guides" ++ "/" /\
  (["docs"; "guides"] <> [] ->
   has_prefix (parent_href (join_sep ["docs"; "guides"; "intro.txt"])) "/" = false).
Proof.
  exact (dirname_parent_href ["docs"; "guides"] "intro.txt"
           ltac:(repeat (constructor || discriminate))).
Defined.

(** formatBytes: the KB branch does not carry into MB: sizes from 1048525
    to 1048575 bytes, just under 1 MiB, are all shown as "1024.0 KB". *)
Theorem formatBytes_kb_top (n : Z) :
  (1048525 <= n <= 1048575)%Z -> formatBytes n = "1024.0 KB".
Proof.
  intros Hn. unfold formatBytes.
  destruct (Z.ltb_spec n 1024); [lia|].
  destruct (Z.ltb_spec n (1024 * 1024)); [|lia].
  rewrite RoundFacts.float64_of_int_exact by lia.
  unfold fmt_1f, round_half_even.
  assert (Hq : (10 * n / 1024 = 10239)%Z)
    by (symmetry; apply (Z.div_unique _ _ _ (10 * n - 10239 * 1024)); lia).
  assert (Hr : (10 * n mod 1024 = 10 * n - 10239 * 1024)%Z)
    by (symmetry; apply (Z.mod_unique _ _ 10239); lia).
  rewrite Hq, Hr.
  destruct (Z.ltb_spec 1024 (2 * (10 * n - 10239 * 1024))); [|lia].
  reflexivity.
Qed.

Lemma formatBytes_kb_top_witness : formatBytes 1048575 = "1024.0 KB".
Proof. apply formatBytes_kb_top. lia. Defined.

(** serveDirectory and the template: the [href] of a child row starts with
    "/", so html/template's URL filter keeps it: a child link is never
    replaced by "#ZgotmplZ", whatever the name (e.g. one with a ':'). *)
Theorem entry_URL_not_filtered (urlPath : string) (entry : dir_entry) :
  url_filter (entry_URL urlPath entry) = entry_URL urlPath entry /\
  url_attr (entry_URL urlPath entry) = html_escape (url_normalize (entry_URL urlPath entry)).
Proof.
  assert (G : forall t, url_filter (String "/" t) = String "/" t).
  { intros t. unfold url_filter. simpl String.index.
    destruct (String.index 0 ":" t) as [i|]; [|reflexivity].
    simpl substring. rewrite contains_String.
    change (String "/" (substring 0 i t)) with ("/" ++ substring 0 i t).
    rewrite prefix_app. reflexivity. }
  assert (H : url_filter (entry_URL urlPath entry) = entry_URL urlPath entry).
  { unfold entry_URL. destruct (negb (String.eqb urlPath "")); apply G. }
  split; [exact H | unfold url_attr; rewrite H; reflexivity].
Qed.

Lemma substring_all (s : string) (m : nat) : String.length s <= m -> substring 0 m s = s.
Proof.
  revert m; induction s as [|c s IH]; intros m Hm; [destruct m; reflexivity|].
  destruct m as [|m]; [simpl in Hm; lia|].
  simpl. rewrite IH by (simpl in Hm; lia). reflexivity.
Qed.

(** ServeHTTP: the one leading "/" of the request path is optional: a path
    without it gets the same response as the same path with it. *)
Theorem ServeHTTP_leading_slash_optional (env : Env) (servePath p : string) :
  has_prefix p "/" = false ->
  ServeHTTP env servePath ("/" ++ p) = ServeHTTP env servePath p.
Proof.
  intros Hp.
  assert (E1 : trim_prefix ("/" ++ p) "/" = p).
  { unfold trim_prefix, has_prefix. rewrite prefix_app.
    simpl. apply substring_all. lia. }
  assert (E2 : trim_prefix p "/" = p) by (unfold trim_prefix; rewrite Hp; reflexivity).
  unfold ServeHTTP. rewrite E1, E2. reflexivity.
Qed.

Lemma ServeHTTP_leading_slash_optional_witness :
  ServeHTTP example_env "/srv/files" ("/" ++ "docs/guide.txt") =
    ServeHTTP example_env "/srv/files" "docs/guide.txt".
Proof. apply ServeHTTP_leading_slash_optional. reflexivity. Defined.
